(** * The GROQ evaluator of groq-js ([src/evaluator/index.js])

    A shallow embedding of the evaluator: the JavaScript data it works on,
    the Value wrappers, the scope chain, the node executors and the entry
    point [evaluate], followed by the properties established about them.

    Conventions of the embedding.
    - A JavaScript number is modelled by an integer ([Z]).  The evaluator
      only compares numbers with [0] and with an array length, adds an array
      length to them and increments them; on integer-valued doubles these
      operations give the results computed here.  Fractional and non-finite
      numbers are outside the model.
    - A JavaScript object used as a record of data is a finite map from the
      names of its own properties to data ([gmap string data]); the order of
      its keys is not modelled.  Its prototype is [Object.prototype], as for
      an object that comes from a JSON text or that the evaluator builds: a
      property that is not its own is looked up there.  An object with
      another prototype is outside the model, and so is the step of the
      [Object] executor that would make one ([Unmodelled] below).  Of the
      [params] object of a scope, which the evaluator hands on and never
      reads, the own properties alone are modelled.
    - The name of a node type, of an operator and of a function selects a
      member of a table that is a JavaScript object.  These names are taken
      outside the property names of [Object.prototype], which such a table
      inherits ([outside] below).
    - An [async] function is modelled by the outcome of awaiting it: either a
      returned reference ([Ok]) or a thrown exception ([Throw]).
    - An async generator is modelled by what a consumer that drains it
      observes: the finite sequence of references it yields and, possibly,
      the exception that ends it. *)

From Stdlib Require Import ZArith.
From stdpp Require Import gmap strings list fin_maps pretty.

Set Warnings "-register-all".
Local Open Scope Z_scope.
Local Open Scope string_scope.

(** ** Outcomes of a call *)

(** The exceptions of the evaluator: the ones it raises itself with
    [new Error(msg)] and the [TypeError] of the JavaScript run time on a
    property access or a method call on [null] or [undefined], and on the
    call of a property that is no function ([prop] is the property that was
    read).

    [Unmodelled what] is no exception of the code.  It marks an evaluation
    that takes a step outside the model ([what] names the step): the code
    goes on from there, and the embedding does not say how. *)
Inductive error :=
| Error (msg : string)
| TypeError (prop : string)
| Unmodelled (what : string).

Inductive result (A : Type) :=
| Ok (a : A)
| Throw (e : error).
Arguments Ok {A} a.
Arguments Throw {A} e.

#[global] Instance result_ret : MRet result := @Ok.
#[global] Instance result_bind : MBind result :=
  fun A B f m => match m with Ok a => f a | Throw e => Throw e end.

(** ** JavaScript data *)

Inductive data :=
| DNull
| DBool (b : bool)
| DNum (z : Z)
| DStr (s : string)
| DArr (l : list data)
| DObj (m : gmap string data).

(** [Array.isArray]. *)
Definition isArray (d : data) : bool :=
  match d with DArr _ => true | _ => false end.

(** Truthiness of a piece of data, as tested by [if (x)]. *)
Definition truthy (d : data) : bool :=
  match d with
  | DNull => false
  | DBool b => b
  | DNum z => negb (Z.eqb z 0)
  | DStr s => negb (String.eqb s "")
  | DArr _ | DObj _ => true
  end.

(** The own enumerable properties that [Object.assign] copies from a source
    that is a piece of data: the properties of an object, the indices of an
    array and of a string, nothing for the other primitives. *)
Definition indexed {A} (f : A -> data) (l : list A) : gmap string data :=
  list_to_map (imap (fun i x => (pretty i, f x)) l).

Definition own_properties (d : data) : gmap string data :=
  match d with
  | DObj m => m
  | DArr l => indexed id l
  | DStr s => indexed (fun c => DStr (String c EmptyString)) (String.list_ascii_of_string s)
  | DNull | DBool _ | DNum _ => ∅
  end.

(** [o.hasOwnProperty(name)] followed, when it answers [true], by
    [o[name]], on an object of data: [None] when [name] is no own property
    of [o].  The method is the one of [Object.prototype] unless [o] has an
    own property [hasOwnProperty]; being data, that one is no function, and
    the call throws. *)
Definition hasOwnProperty (o : gmap string data) (name : string)
  : result (option data) :=
  match o !! "hasOwnProperty" with
  | Some _ => Throw (TypeError "hasOwnProperty")
  | None => Ok (o !! name)
  end.

(** The data that the setter of [__proto__] accepts as a prototype: an
    object (an array is one) or [null]. *)
Definition prototype_like (d : data) : bool :=
  match d with
  | DNull | DArr _ | DObj _ => true
  | DBool _ | DNum _ | DStr _ => false
  end.

(** [target[key] = d] on an object under construction, whose prototype is
    [Object.prototype].  The assignment makes or replaces an own property,
    except for the key [__proto__]: that one is an accessor of
    [Object.prototype], whose setter stores no property; it ignores a [d]
    that is neither an object nor [null], and otherwise replaces the
    prototype of [target]. *)
Definition set_property (target : gmap string data) (key : string) (d : data)
  : result (gmap string data) :=
  if String.eqb key "__proto__" then
    if prototype_like d then Throw (Unmodelled "__proto__") else Ok target
  else Ok (<[key := d]> target).

(** The own properties of [target] after [Object.assign(target, source)],
    for the own enumerable properties [source]: each is assigned as
    [set_property] does, so all are bound but [__proto__]. *)
Definition assigned (target source : gmap string data) : gmap string data :=
  delete "__proto__" source ∪ target.

(** [Object.assign(target, source)] on an object under construction. *)
Definition assign (target source : gmap string data) : result (gmap string data) :=
  match source !! "__proto__" with
  | Some d =>
      if prototype_like d then Throw (Unmodelled "__proto__")
      else Ok (assigned target source)
  | None => Ok (assigned target source)
  end.

(** [d[name]] for a property name that is no built-in property of arrays,
    strings, numbers or booleans (the evaluator reads [_ref] and [_id] this
    way): [None] is [undefined]; reading a property of [null] throws. *)
Definition get_property (d : data) (name : string) : result (option data) :=
  match d with
  | DNull => Throw (TypeError name)
  | DObj m => Ok (m !! name)
  | DBool _ | DNum _ | DStr _ | DArr _ => Ok None
  end.

(** [Array.prototype.slice(start, end)] on integer arguments: a negative
    argument counts from the end, both are clamped to [0, length]. *)
Definition relative_index (len k : Z) : Z :=
  if Z.ltb k 0 then Z.max (len + k) 0 else Z.min k len.

Definition slice {A} (l : list A) (start end_ : Z) : list A :=
  let len := Z.of_nat (length l) in
  let k := relative_index len start in
  let final := relative_index len end_ in
  take (Z.to_nat (final - k)) (drop (Z.to_nat k) l).

(** ** Values ([./value], not part of the sources at hand) *)

(** Modelled from the spec: the Value wrappers of [./value].  A Value is
    either eager ([StaticValue], holding its data in the field [data], which
    the evaluator reads as [key.data] and [doc.data]) or a lazily streamed
    array ([StreamValue], built from an async generator).  The stream is
    represented by the references its generator yields, in order, and by the
    exception that ends it, if any; that a stream is to be consumed once is
    not tracked, iterating it gives this sequence each time.  A reference to
    a Value is an [option val]: [None] is the bare JavaScript [null]. *)
Inductive val :=
| StaticValue (d : data)
| StreamValue (elems : list (option val)) (tail : option error).

Definition NULL_VALUE : val := StaticValue DNull.
Definition TRUE_VALUE : val := StaticValue (DBool true).
Definition FALSE_VALUE : val := StaticValue (DBool false).

(** What a drained generator leaves behind. *)
Definition gen : Type := list (option val) * option error.

Definition new_StreamValue (g : gen) : val := StreamValue g.1 g.2.

(** Modelled from the spec: the type tag of a Value, one of [null],
    [boolean], [number], [string], [object], [array]. *)
Definition getType (v : val) : string :=
  match v with
  | StaticValue DNull => "null"
  | StaticValue (DBool _) => "boolean"
  | StaticValue (DNum _) => "number"
  | StaticValue (DStr _) => "string"
  | StaticValue (DArr _) => "array"
  | StaticValue (DObj _) => "object"
  | StreamValue _ _ => "array"
  end.

(** Modelled from the spec: the boolean coercion, true only for the literal
    boolean [true]. *)
Definition getBoolean (v : val) : bool :=
  match v with
  | StaticValue (DBool true) => true
  | _ => false
  end.

(** Modelled from the spec: the one-shot forward iteration of an array-typed
    Value ([for await (let x of v)]).  An eager array yields its elements as
    eager Values; a stream yields what its generator yields.  The evaluator
    iterates array-typed Values only. *)
Definition iterate (v : val) : gen :=
  match v with
  | StaticValue (DArr l) => (map (fun d => Some (StaticValue d)) l, None)
  | StaticValue _ => ([], Some (TypeError "Symbol.asyncIterator"))
  | StreamValue elems tail => (elems, tail)
  end.

(** Modelled from the spec: materialisation, the fully realised underlying
    data.  A stream is drained and each of its elements is materialised in
    turn. *)
Fixpoint get (v : val) : result data :=
  match v with
  | StaticValue d => Ok d
  | StreamValue elems tail =>
      l ← (fix drain (l : list (option val)) : result (list data) :=
             match l with
             | [] => match tail with None => Ok [] | Some e => Throw e end
             | None :: _ => Throw (TypeError "get")
             | Some x :: rest => d ← get x; ds ← drain rest; Ok (d :: ds)
             end) elems;
      Ok (DArr l)
  end.

(** The draining loop of [get], by name. *)
Fixpoint drain (tail : option error) (l : list (option val)) : result (list data) :=
  match l with
  | [] => match tail with None => Ok [] | Some e => Throw e end
  | None :: _ => Throw (TypeError "get")
  | Some x :: rest => d ← get x; ds ← drain tail rest; Ok (d :: ds)
  end.

(** Modelled from the spec: the field [data] of a Value object of [./value],
    in which an eager Value holds its underlying data; a stream has no such
    field. *)
Definition data_field (v : val) : option data :=
  match v with
  | StaticValue d => Some d
  | StreamValue _ _ => None
  end.

(** Method calls and field reads through a reference: on the bare [null]
    they throw. *)
Definition deref {A} (prop : string) (f : val -> A) (r : option val) : result A :=
  match r with
  | Some v => Ok (f v)
  | None => Throw (TypeError prop)
  end.

Definition ref_getType : option val -> result string := deref "getType" getType.
Definition ref_getBoolean : option val -> result bool := deref "getBoolean" getBoolean.
Definition ref_get (r : option val) : result data :=
  match r with
  | Some v => get v
  | None => Throw (TypeError "get")
  end.

(** [for await (let x of r)] through a reference: what the loop iterates
    over. *)
Definition ref_iterate (r : option val) : gen :=
  match r with
  | Some v => iterate v
  | None => ([], Some (TypeError "Symbol.asyncIterator"))
  end.

#[global] Instance data_inhabited : Inhabited data := populate DNull.

(** ** Async generators *)

Definition yield (r : option val) : gen := ([r], None).
Definition gen_return : gen := ([], None).
Definition gen_throw (e : error) : gen := ([], Some e).

(** Sequencing inside a generator body: what follows [g] runs only when [g]
    did not throw. *)
Definition gen_then (g k : gen) : gen :=
  match g.2 with
  | Some e => g
  | None => ((g.1 ++ k.1)%list, k.2)
  end.

(** [await] of a call inside a generator body. *)
Definition gen_await {A} (r : result A) (k : A -> gen) : gen :=
  match r with
  | Ok a => k a
  | Throw e => gen_throw e
  end.

(** [for (let x of l) body] inside a generator body. *)
Definition for_of {A} (body : A -> gen) : list A -> gen :=
  fix loop (l : list A) : gen :=
    match l with
    | [] => gen_return
    | x :: rest => gen_then (body x) (loop rest)
    end.

(** [for await (let x of s) body] inside a generator body: the body runs on
    what [s] yields, then the exception that ended [s] is rethrown. *)
Definition for_await (s : gen) (body : option val -> gen) : gen :=
  gen_then (for_of body s.1) ([], s.2).

(** ** Document source and scope *)

Record StaticSource := { documents : list data }.

Definition createSink (this : StaticSource) : val :=
  StaticValue (DArr (documents this)).

Inductive Scope := new_Scope {
  params : gmap string data;
  source : StaticSource;
  value : option val;
  parent : option Scope
}.

Definition createNested (this : Scope) (value : option val) : Scope :=
  new_Scope (params this) (source this) value (Some this).

(** ** Names *)

(** The property names of [Object.prototype]: every member of it is found
    by [table[name]] in a table that is an ordinary object. *)
Definition prototype_names : list string :=
  ["constructor"; "__defineGetter__"; "__defineSetter__"; "hasOwnProperty";
   "__lookupGetter__"; "__lookupSetter__"; "isPrototypeOf";
   "propertyIsEnumerable"; "toString"; "valueOf"; "__proto__";
   "toLocaleString"].

(** The keys of [EXECUTORS]. *)
Definition executor_names : list string :=
  ["This"; "Star"; "Parent"; "OpCall"; "FuncCall"; "Filter"; "Element";
   "Slice"; "Attribute"; "Identifier"; "Value"; "Projection"; "Flatten";
   "Deref"; "Object"; "Array"; "And"; "Not"].

(** The two kinds of attribute specification. *)
Definition attribute_kinds : list string := ["ObjectSplat"; "ObjectAttribute"].

Definition among (names : list string) (s : string) : bool :=
  existsb (String.eqb s) names.

(** A string that is none of [reserved]. *)
Record outside (reserved : list string) := Outside {
  outside_string :> string;
  outside_free : Is_true (negb (among reserved outside_string))
}.
Arguments Outside {reserved} & outside_string outside_free.
Arguments outside_string {reserved} _.
Arguments outside_free {reserved} _.

(** The name [s], where it is plain from the string that it is free. *)
Abbreviation named s := (Outside s I).

(** ** Syntax trees *)

(** The attribute specifications of an object construction.
    [UnknownAttribute type] stands for a specification whose [type] is
    neither [ObjectSplat] nor [ObjectAttribute]. *)
Inductive attribute (node : Type) :=
| ObjectSplat
| ObjectAttribute (key value : node)
| UnknownAttribute (type : outside attribute_kinds).
Arguments ObjectSplat {node}.
Arguments ObjectAttribute {node} key value.
Arguments UnknownAttribute {node} type.

(** The nodes, one constructor per entry of [EXECUTORS].  [UnknownNode type]
    stands for a node whose [type] is no key of [EXECUTORS]; it is no
    property name of [Object.prototype] either, and so are the names of
    operators and of functions. *)
Inductive node :=
| This
| Star
| Parent
| OpCall (op : outside prototype_names) (left right : node)
| FuncCall (name : outside prototype_names) (args : list node)
| Filter (base query : node)
| Element (base index : node)
| Slice (base left right : node) (isExclusive : bool)
| Attribute (base : node) (name : string)
| Identifier (name : string)
| Value (value : data)
| Projection (base query : node)
| Flatten (base : node)
| Deref (base : node)
| Object (attributes : list (attribute node))
| Array (elements : list node)
| And (left right : node)
| Not (base : node)
| UnknownNode (type : outside (executor_names ++ prototype_names)).

(** ** The registries ([./operators], [./functions]) *)

(** An operator is called as [func(left, right, scope, execute)] and a
    function as [func(args, scope, execute)].  The embedding hands each of
    them its nodes together with [execute] already applied to these nodes:
    an implementation may inspect its nodes and evaluate them in any scope,
    any number of times, or not at all. *)
Abbreviation executor := (Scope -> result (option val)).
Abbreviation operator :=
  (node -> node -> Scope -> executor -> executor -> result (option val)).
Abbreviation function :=
  (list node -> Scope -> list executor -> result (option val)).

(** The second argument of [evaluate]; an option that was left out is
    [None] (it reads as [undefined]). *)
Module options.
Record t := { documents : option data; params : option data }.
End options.

(** [x != y] on strings. *)
Definition differs (x y : string) : bool := negb (String.eqb x y).

Section Evaluator.

(** The two registries, and the own enumerable properties of a
    [StreamValue] object (its generator and bookkeeping fields as
    [Object.assign] would copy them), which the sources at hand do not
    determine. *)
Variable operators : gmap string operator.
Variable functions : gmap string function.
Variable StreamValue_fields : list (option val) -> option error -> gmap string data.

(** Modelled from the spec: the own enumerable properties of a Value object
    of [./value], as [Object.assign] copies them.  An eager Value has its
    field [data]; those of a stream are the parameter above. *)
Definition own_fields (v : val) : gmap string data :=
  match v with
  | StaticValue d => {["data" := d]}
  | StreamValue elems tail => StreamValue_fields elems tail
  end.

(** [Object.assign(target, source)] for a source that is a reference to a
    Value object; a [null] source is skipped. *)
Definition Object_assign (target : gmap string data) (source : option val)
  : result (gmap string data) :=
  match source with
  | Some v => assign target (own_fields v)
  | None => Ok target
  end.

(** The scan of [Deref]: [for await (let doc of sink) if (id === doc.data._id)
    return doc], then [return NULL_VALUE]. *)
Fixpoint Deref_scan (id : string) (docs : list (option val)) (tail : option error)
  : result (option val) :=
  match docs with
  | [] => match tail with
          | Some e => Throw e
          | None => Ok (Some NULL_VALUE)
          end
  | doc :: rest =>
      doc_data ← deref "data" data_field doc;
      doc_id ← match doc_data with
               | Some d => get_property d "_id"
               | None => Throw (TypeError "_id")
               end;
      match doc_id with
      | Some (DStr s) =>
          if String.eqb id s then Ok doc else Deref_scan id rest tail
      | _ => Deref_scan id rest tail
      end
  end.

(** [execute(node, scope)]: the dispatch on [node.type] with the executors of
    [EXECUTORS] in place.  A registry is given by its own entries: for a
    name that is no property name of [Object.prototype], [registry[name]]
    is the own entry or [undefined].  Where an executor reads the data of a
    Value after having tested its type tag, the cases that the tag excludes
    return as the nearest mismatch path does. *)
Fixpoint execute (n : node) (scope : Scope) {struct n} : result (option val) :=
  match n with
  | This => Ok (value scope)

  | Star => Ok (Some (createSink (source scope)))

  | Parent =>
      match parent scope with
      | Some p => Ok (value p)
      | None => Ok (Some NULL_VALUE)
      end

  | OpCall op left_ right_ =>
      match operators !! outside_string op with
      | None => Throw (Error ("Unknown operator: " ++ op))
      | Some func => func left_ right_ scope (execute left_) (execute right_)
      end

  | FuncCall name args =>
      match functions !! outside_string name with
      | None => Throw (Error ("Unknown function: " ++ name))
      | Some func => func args scope (map execute args)
      end

  | Filter base query =>
      baseValue ← execute base scope;
      ty ← ref_getType baseValue;
      if differs ty "array" then Ok (Some NULL_VALUE) else
      Ok (Some (new_StreamValue (
        for_await (ref_iterate baseValue) (fun value =>
          let newScope := createNested scope value in
          gen_await (execute query newScope) (fun condValue =>
          gen_await (ref_getBoolean condValue) (fun cond =>
          if cond then yield value else gen_return))))))

  | Element base index =>
      arrayValue ← execute base scope;
      ty ← ref_getType arrayValue;
      if differs ty "array" then Ok (Some NULL_VALUE) else
      idxValue ← execute index scope;
      ity ← ref_getType idxValue;
      if differs ity "number" then Ok (Some NULL_VALUE) else
      array ← ref_get arrayValue;
      idx ← ref_get idxValue;
      match array, idx with
      | DArr array, DNum idx =>
          let len := Z.of_nat (length array) in
          let idx := if Z.ltb idx 0 then len + idx else idx in
          if Z.leb 0 idx && Z.ltb idx len
          then Ok (Some (StaticValue (array !!! Z.to_nat idx)))
          else Ok (Some NULL_VALUE)
      | _, _ => Ok (Some NULL_VALUE)
      end

  | Slice base left_ right_ isExclusive =>
      arrayValue ← execute base scope;
      ty ← ref_getType arrayValue;
      if differs ty "array" then Ok (Some NULL_VALUE) else
      leftIdxValue ← execute left_ scope;
      rightIdxValue ← execute right_ scope;
      lty ← ref_getType leftIdxValue;
      if differs lty "number" then Ok None else
      rty ← ref_getType rightIdxValue;
      if differs rty "number" then Ok None else
      array ← ref_get arrayValue;
      leftIdx ← ref_get leftIdxValue;
      rightIdx ← ref_get rightIdxValue;
      match array, leftIdx, rightIdx with
      | DArr array, DNum leftIdx, DNum rightIdx =>
          let len := Z.of_nat (length array) in
          let leftIdx := if Z.ltb leftIdx 0 then len + leftIdx else leftIdx in
          let rightIdx := if Z.ltb rightIdx 0 then len + rightIdx else rightIdx in
          let rightIdx := if negb isExclusive then rightIdx + 1 else rightIdx in
          let leftIdx := if Z.ltb leftIdx 0 then 0 else leftIdx in
          let rightIdx := if Z.ltb rightIdx 0 then 0 else rightIdx in
          Ok (Some (StaticValue (DArr (slice array leftIdx rightIdx))))
      | _, _, _ => Ok None
      end

  | Attribute base name =>
      baseValue ← execute base scope;
      ty ← ref_getType baseValue;
      if String.eqb ty "object" then
        baseData ← ref_get baseValue;
        match baseData with
        | DObj baseData =>
            own ← hasOwnProperty baseData name;
            match own with
            | Some x => Ok (Some (StaticValue x))
            | None => Ok (Some NULL_VALUE)
            end
        | _ => Ok (Some NULL_VALUE)
        end
      else Ok (Some NULL_VALUE)

  | Identifier name =>
      ty ← ref_getType (value scope);
      if String.eqb ty "object" then
        data ← ref_get (value scope);
        match data with
        | DObj data =>
            own ← hasOwnProperty data name;
            match own with
            | Some x => Ok (Some (StaticValue x))
            | None => Ok (Some NULL_VALUE)
            end
        | _ => Ok (Some NULL_VALUE)
        end
      else Ok (Some NULL_VALUE)

  | Value value => Ok (Some (StaticValue value))

  | Projection base query =>
      baseValue ← execute base scope;
      ty ← ref_getType baseValue;
      if String.eqb ty "array" then
        Ok (Some (new_StreamValue (
          for_await (ref_iterate baseValue) (fun value =>
            let newScope := createNested scope value in
            gen_await (execute query newScope) (fun newValue =>
            yield newValue)))))
      else
        let newScope := createNested scope baseValue in
        execute query newScope

  | Flatten base =>
      baseValue ← execute base scope;
      ty ← ref_getType baseValue;
      if differs ty "array" then Ok (Some NULL_VALUE) else
      Ok (Some (new_StreamValue (
        for_await (ref_iterate baseValue) (fun value =>
          gen_await (ref_getType value) (fun vty =>
          if String.eqb vty "array" then
            for_await (ref_iterate value) (fun element =>
              yield element)
          else yield (Some NULL_VALUE))))))

  | Deref base =>
      baseValue ← execute base scope;
      ty ← ref_getType baseValue;
      if differs ty "object" then Ok (Some NULL_VALUE) else
      baseData ← ref_get baseValue;
      id ← get_property baseData "_ref";
      match id with
      | Some (DStr id) =>
          let sink := iterate (createSink (source scope)) in
          Deref_scan id sink.1 sink.2
      | _ => Ok (Some NULL_VALUE)
      end

  | Object attributes =>
      (fix loop (attributes : list (attribute node)) (result : gmap string data)
         {struct attributes} : _ :=
         match attributes with
         | [] => Ok (Some (StaticValue (DObj result)))
         | attr :: rest =>
             match attr with
             | ObjectSplat =>
                 result ← Object_assign result (value scope);
                 loop rest result
             | ObjectAttribute k v =>
                 key ← execute k scope;
                 kty ← ref_getType key;
                 if differs kty "string" then loop rest result else
                 value ← execute v scope;
                 vty ← ref_getType value;
                 if String.eqb vty "null" then loop rest result else
                 d ← ref_get value;
                 match key ≫= data_field with
                 | Some (DStr name) =>
                     result ← set_property result name d;
                     loop rest result
                 | _ => loop rest result
                 end
             | UnknownAttribute type =>
                 Throw (Error ("Unknown node type: " ++ type))
             end
         end) attributes ∅

  | Array elements =>
      Ok (Some (new_StreamValue (
        for_of (fun element => gen_await (execute element scope) yield) elements)))

  | And left_ right_ =>
      leftValue ← execute left_ scope;
      lb ← ref_getBoolean leftValue;
      if negb lb then Ok (Some FALSE_VALUE) else
      rightValue ← execute right_ scope;
      rb ← ref_getBoolean rightValue;
      if negb rb then Ok (Some FALSE_VALUE) else
      Ok (Some TRUE_VALUE)

  | Not base =>
      value ← execute base scope;
      b ← ref_getBoolean value;
      Ok (Some (if (b : bool) then FALSE_VALUE else TRUE_VALUE))

  | UnknownNode type => Throw (Error ("No executor for node.type=" ++ type))
  end.

(** ** The entry point *)

(** [evaluate(tree, options)].  The test [options.documents != null] takes
    [null] as it takes [undefined].  The [params] of a scope are the own
    properties of its [params] object: [Object.assign] binds there the own
    properties of the caller's params, except one named [__proto__], which
    goes to the setter of that name and becomes no property. *)
Definition evaluate (tree : node) (options : options.t) : result (option val) :=
  let params : gmap string data := {["identity" := DStr "groot"]} in
  source ←
    match options.documents options with
    | None | Some DNull => Ok {| documents := [] |}
    | Some (DArr documents) => Ok {| documents := documents |}
    | Some _ => Throw (Error "documents must be an array")
    end;
  let params :=
    match options.params options with
    | Some p => if truthy p then assigned params (own_properties p) else params
    | None => params
    end in
  let scope := new_Scope params source (Some NULL_VALUE) None in
  execute tree scope.

End Evaluator.

(** ** Vocabulary of the properties *)

(** [d] is a document whose [_id] is the string [id]. *)
Definition has_id (id : string) (d : data) : bool :=
  match d with
  | DObj m =>
      match m !! "_id" with
      | Some (DStr s) => String.eqb id s
      | _ => false
      end
  | _ => false
  end.

(** What [Flatten] yields in place of one element of its base. *)
Definition flattened (v : val) : list (option val) :=
  if String.eqb (getType v) "array" then (iterate v).1 else [Some NULL_VALUE].

(** The exceptions the evaluator raises itself: a node type without
    executor, an unknown operator, an unknown function, an unknown kind of
    attribute specification. *)
Definition own_error (e : error) : bool :=
  match e with
  | Error msg =>
      String.prefix "No executor for node.type=" msg
      || String.prefix "Unknown operator: " msg
      || String.prefix "Unknown function: " msg
      || String.prefix "Unknown node type: " msg
  | TypeError _ | Unmodelled _ => false
  end.

(** Among them, the three that come from an unknown operator name, an
    unknown function name or an unknown kind of attribute specification. *)
Definition listed_error (e : error) : bool :=
  match e with
  | Error msg =>
      String.prefix "Unknown operator: " msg
      || String.prefix "Unknown function: " msg
      || String.prefix "Unknown node type: " msg
  | TypeError _ | Unmodelled _ => false
  end.

(** A piece of data is plain when no object in it has an own property
    [hasOwnProperty]. *)
Fixpoint plain (d : data) : bool :=
  match d with
  | DNull | DBool _ | DNum _ | DStr _ => true
  | DArr l => forallb plain l
  | DObj m =>
      match m !! "hasOwnProperty" with Some _ => false | None => true end
      && map_fold (fun _ x rest => plain x && rest) true m
  end.

(** A Value is well formed when its data is plain, no stream in it yields
    the bare [null] and every stream in it ends normally or with one of the
    evaluator's own exceptions. *)
Fixpoint wf_val (v : val) : bool :=
  match v with
  | StaticValue d => plain d
  | StreamValue elems tail =>
      forallb (fun r => match r with Some x => wf_val x | None => false end) elems
      && from_option own_error true tail
  end.

Definition wf_ref (r : option val) : bool :=
  match r with
  | Some v => wf_val v
  | None => false
  end.

Definition wf_gen (g : gen) : bool :=
  forallb wf_ref g.1 && from_option own_error true g.2.

(** The outcome of a call is well formed when it is a well-formed Value or
    one of the evaluator's own exceptions. *)
Definition wf_outcome (r : result (option val)) : bool :=
  match r with
  | Ok r => wf_ref r
  | Throw e => own_error e
  end.

(** A scope is well formed when the current value of each scope of its chain
    is a well-formed Value and every document of the source is plain and is
    not [null]. *)
Fixpoint wf_scope (s : Scope) : bool :=
  match s with
  | new_Scope _ src v p =>
      wf_ref v
      && forallb (fun d => match d with DNull => false | _ => plain d end)
           (documents src)
      && match p with Some p => wf_scope p | None => true end
  end.

(** The own enumerable properties of a [StreamValue] object are well formed
    when they are plain data and none is named [__proto__]. *)
Definition wf_fields
    (fields : list (option val) -> option error -> gmap string data) : Prop :=
  forall elems tail,
    plain (DObj (fields elems tail)) = true
    /\ fields elems tail !! "__proto__" = None.

(** The nodes that are a number literal. *)
Definition number_literal (n : node) : bool :=
  match n with
  | Value (DNum _) => true
  | _ => false
  end.

(** The nodes that are a literal fit for the key of an attribute: not the
    string [__proto__], which names no property, nor [hasOwnProperty], which
    would hide the method of that name. *)
Definition key_literal (n : node) : bool :=
  match n with
  | Value (DStr s) =>
      negb (String.eqb s "__proto__") && negb (String.eqb s "hasOwnProperty")
  | Value _ => true
  | _ => false
  end.

(** The trees in which the bounds of every [Slice] node are number
    literals, as in [base[1..3]]. *)
Fixpoint literal_bounds (n : node) : bool :=
  match n with
  | This | Star | Parent | Identifier _ | Value _ | UnknownNode _ => true
  | OpCall _ l r => literal_bounds l && literal_bounds r
  | FuncCall _ args => forallb literal_bounds args
  | Filter b q | Element b q | Projection b q | And b q =>
      literal_bounds b && literal_bounds q
  | Slice b l r _ => literal_bounds b && number_literal l && number_literal r
  | Attribute b _ | Flatten b | Deref b | Not b => literal_bounds b
  | Object attributes =>
      forallb (fun a => match a with
                        | ObjectAttribute k v => literal_bounds k && literal_bounds v
                        | _ => true
                        end) attributes
  | Array elements => forallb literal_bounds elements
  end.

(** The trees in which, moreover, the key of every attribute is a literal
    as above, as in [{"name": value}], and the data of every literal is
    plain. *)
Fixpoint tame (n : node) : bool :=
  match n with
  | This | Star | Parent | Identifier _ | UnknownNode _ => true
  | Value d => plain d
  | OpCall _ l r => tame l && tame r
  | FuncCall _ args => forallb tame args
  | Filter b q | Element b q | Projection b q | And b q => tame b && tame q
  | Slice b l r _ => tame b && number_literal l && number_literal r
  | Attribute b _ | Flatten b | Deref b | Not b => tame b
  | Object attributes =>
      forallb (fun a => match a with
                        | ObjectAttribute k v => key_literal k && tame v
                        | _ => true
                        end) attributes
  | Array elements => forallb tame elements
  end.

(** A Value is free of the bare [null] when no stream in it yields it. *)
Fixpoint null_free (v : val) : bool :=
  match v with
  | StaticValue _ => true
  | StreamValue elems _ =>
      forallb (fun r => match r with Some x => null_free x | None => false end) elems
  end.

Definition null_free_ref (r : option val) : bool :=
  match r with
  | Some v => null_free v
  | None => false
  end.

Definition null_free_gen (g : gen) : bool := forallb null_free_ref g.1.

(** An outcome is free of the bare [null] when it is an exception or a
    reference to a Value that is free of it. *)
Definition null_free_outcome (r : result (option val)) : bool :=
  match r with
  | Ok r => null_free_ref r
  | Throw _ => true
  end.

(** So is a scope when the current value of each scope of its chain is. *)
Fixpoint null_free_scope (s : Scope) : bool :=
  match s with
  | new_Scope _ _ v p =>
      null_free_ref v && match p with Some p => null_free_scope p | None => true end
  end.

(** An operator, or a function, of the registry makes no bare [null]: from
    such a scope and executors that make none in such scopes, its outcome is
    free of it. *)
Definition null_free_executor (e : executor) : Prop :=
  forall scope, null_free_scope scope = true -> null_free_outcome (e scope) = true.

Definition null_free_operator (f : operator) : Prop :=
  forall l r scope el er,
    null_free_executor el -> null_free_executor er ->
    null_free_scope scope = true ->
    null_free_outcome (f l r scope el er) = true.

Definition null_free_function (f : function) : Prop :=
  forall args scope es,
    Forall null_free_executor es -> null_free_scope scope = true ->
    null_free_outcome (f args scope es) = true.

(** An operator, or a function, of the registry keeps outcomes well formed:
    from a well-formed scope and executors that give well-formed outcomes in
    well-formed scopes, its outcome is well formed.  It makes no bare [null],
    and an exception it raises is one of the evaluator's own, as when it
    passes on the exception of an operand. *)
Definition wf_executor (e : executor) : Prop :=
  forall scope, wf_scope scope = true -> wf_outcome (e scope) = true.

Definition wf_operator (f : operator) : Prop :=
  forall l r scope el er,
    wf_executor el -> wf_executor er -> wf_scope scope = true ->
    wf_outcome (f l r scope el er) = true.

Definition wf_function (f : function) : Prop :=
  forall args scope es,
    Forall wf_executor es -> wf_scope scope = true ->
    wf_outcome (f args scope es) = true.

(** [P] holds of the nodes of an attribute specification. *)
Definition attribute_all (P : node -> Prop) (a : attribute node) : Prop :=
  match a with
  | ObjectAttribute k v => P k /\ P v
  | _ => True
  end.

(** ** Registries and scopes of the instances *)

(** A [StreamValue] object without enumerable properties. *)
Definition no_fields : list (option val) -> option error -> gmap string data :=
  fun _ _ => ∅.

(** An operator that evaluates its left operand in the current scope, and a
    registry that knows it as [first]. *)
Definition left_operand : operator := fun _ _ scope el _ => el scope.

Definition sample_operators : gmap string operator :=
  {[ "first" := left_operand ]}.

(** The scope [evaluate] starts from, over the documents [docs] and the
    default parameters. *)
Definition root_scope (docs : list data) : Scope :=
  new_Scope {[ "identity" := DStr "groot" ]} {| documents := docs |}
    (Some NULL_VALUE) None.

(** The data of the instances. *)
Definition tens : data := DArr [DNum 10; DNum 20; DNum 30].
Definition flags : data := DArr [DBool true; DNum 3; DBool false; DBool true].
Definition nested : data := DArr [DArr [DNum 1; DNum 2]; DNum 3; DArr [DNum 4]].
Definition doc_x : data := DObj {[ "_id" := DStr "x"; "v" := DNum 1 ]}.
Definition doc_y : data := DObj {[ "_id" := DStr "y"; "v" := DNum 2 ]}.


(** ** The loop of the Object executor, by name *)

(** The loop of the [Object] executor over the attribute specifications
    that are left and the object built so far, for the executor [exec] of
    the nodes. *)
Fixpoint Object_loop
    (fields : list (option val) -> option error -> gmap string data)
    (exec : node -> executor) (scope : Scope)
    (attributes : list (attribute node)) (acc : gmap string data)
    {struct attributes} : result (option val) :=
  match attributes with
  | [] => Ok (Some (StaticValue (DObj acc)))
  | attr :: rest =>
      match attr with
      | ObjectSplat =>
          acc ← Object_assign fields acc (value scope);
          Object_loop fields exec scope rest acc
      | ObjectAttribute k v =>
          key ← exec k scope;
          kty ← ref_getType key;
          if differs kty "string" then Object_loop fields exec scope rest acc else
          value ← exec v scope;
          vty ← ref_getType value;
          if String.eqb vty "null" then Object_loop fields exec scope rest acc else
          d ← ref_get value;
          match key ≫= data_field with
          | Some (DStr name) =>
              acc ← set_property acc name d;
              Object_loop fields exec scope rest acc
          | _ => Object_loop fields exec scope rest acc
          end
      | UnknownAttribute type =>
          Throw (Error ("Unknown node type: " ++ type))
      end
  end.

(** The object a constructed Value holds, if it is an eager object. *)
Definition object_of (r : option val) : option (gmap string data) :=
  match r with
  | Some (StaticValue (DObj m)) => Some m
  | _ => None
  end.

(** * Properties *)

Section Properties.

Variable operators : gmap string operator.
Variable functions : gmap string function.
Variable StreamValue_fields : list (option val) -> option error -> gmap string data.

Abbreviation execute := (execute operators functions StreamValue_fields).
Abbreviation evaluate := (evaluate operators functions StreamValue_fields).

(** ** Type tags *)

Lemma differs_false (x : string) : differs x x = false.
Proof. unfold differs. by rewrite String.eqb_refl. Qed.

Lemma differs_true (x y : string) : x ≠ y -> differs x y = true.
Proof. unfold differs. intros H. by apply negb_true_iff, String.eqb_neq. Qed.

Lemma eqb_false (x y : string) : x ≠ y -> String.eqb x y = false.
Proof. apply String.eqb_neq. Qed.

Lemma getType_number (v : val) :
  getType v = "number" -> exists z, v = StaticValue (DNum z).
Proof. destruct v as [[]|]; try discriminate. eauto. Qed.

Lemma getType_string (v : val) :
  getType v = "string" -> exists s, v = StaticValue (DStr s).
Proof. destruct v as [[]|]; try discriminate. eauto. Qed.

Lemma getType_object (v : val) :
  getType v = "object" -> exists m, v = StaticValue (DObj m).
Proof. destruct v as [[]|]; try discriminate. eauto. Qed.

Lemma getType_null (v : val) : getType v = "null" -> v = NULL_VALUE.
Proof. destruct v as [[]|]; try discriminate. done. Qed.

(** A Value that materialises to an array has the type tag [array]. *)
Lemma get_array_type (v : val) (l : list data) :
  get v = Ok (DArr l) -> getType v = "array".
Proof. destruct v as [[]|]; simpl; try discriminate; done. Qed.

(** An array-typed Value materialises to an array, when it materialises. *)
Lemma getType_array_get (v : val) (d : data) :
  getType v = "array" -> get v = Ok d -> exists l, d = DArr l.
Proof.
  destruct v as [[]|elems tail]; simpl; try discriminate.
  - intros _ [= <-]. eauto.
  - intros _. match goal with |- context [?f elems] => destruct (f elems) end;
      simpl; [intros [= <-]; eauto | discriminate].
Qed.

(** Materialising an eager array that was streamed element by element. *)
Lemma get_stream_static (l : list data) :
  get (StreamValue (map (fun d => Some (StaticValue d)) l) None) = Ok (DArr l).
Proof.
  simpl. induction l as [|d l IH]; [done|].
  simpl in *.
  match type of IH with context [?f (map _ l)] => destruct (f (map _ l)) end;
    simpl in *; congruence.
Qed.

(** ** The paths that end in the null Value *)

Lemma Filter_non_array base query scope bv :
  execute base scope = Ok (Some bv) -> getType bv ≠ "array" ->
  execute (Filter base query) scope = Ok (Some NULL_VALUE).
Proof. intros Hb Hty. simpl. rewrite Hb. simpl. by rewrite differs_true. Qed.

Lemma Element_non_array base index scope bv :
  execute base scope = Ok (Some bv) -> getType bv ≠ "array" ->
  execute (Element base index) scope = Ok (Some NULL_VALUE).
Proof. intros Hb Hty. simpl. rewrite Hb. simpl. by rewrite differs_true. Qed.

Lemma Element_non_number base index scope bv iv :
  execute base scope = Ok (Some bv) -> getType bv = "array" ->
  execute index scope = Ok (Some iv) -> getType iv ≠ "number" ->
  execute (Element base index) scope = Ok (Some NULL_VALUE).
Proof.
  intros Hb Hty Hi Hity. simpl. rewrite Hb. simpl. rewrite Hty, differs_false.
  rewrite Hi. simpl. by rewrite differs_true.
Qed.

(** The executor of [Element] on an array and a number.  *)
Lemma Element_array base index scope bv A i :
  execute base scope = Ok (Some bv) -> get bv = Ok (DArr A) ->
  execute index scope = Ok (Some (StaticValue (DNum i))) ->
  execute (Element base index) scope =
    let len := Z.of_nat (length A) in
    let j := if Z.ltb i 0 then len + i else i in
    if Z.leb 0 j && Z.ltb j len
    then Ok (Some (StaticValue (A !!! Z.to_nat j)))
    else Ok (Some NULL_VALUE).
Proof.
  intros Hb Hget Hi. simpl. rewrite Hb. simpl.
  rewrite (get_array_type _ _ Hget), differs_false.
  rewrite Hi. simpl. rewrite Hget. simpl. done.
Qed.

Lemma Slice_non_array base left_ right_ isExclusive scope bv :
  execute base scope = Ok (Some bv) -> getType bv ≠ "array" ->
  execute (Slice base left_ right_ isExclusive) scope = Ok (Some NULL_VALUE).
Proof. intros Hb Hty. simpl. rewrite Hb. simpl. by rewrite differs_true. Qed.

Lemma Attribute_non_object base name scope bv :
  execute base scope = Ok (Some bv) -> getType bv ≠ "object" ->
  execute (Attribute base name) scope = Ok (Some NULL_VALUE).
Proof. intros Hb Hty. simpl. rewrite Hb. simpl. by rewrite eqb_false. Qed.

Lemma Attribute_missing_key base name scope m :
  execute base scope = Ok (Some (StaticValue (DObj m))) ->
  m !! "hasOwnProperty" = None -> m !! name = None ->
  execute (Attribute base name) scope = Ok (Some NULL_VALUE).
Proof.
  intros Hb Hown Hm. simpl. rewrite Hb. simpl.
  unfold hasOwnProperty. rewrite Hown. simpl. by rewrite Hm.
Qed.

Lemma Identifier_non_object name scope v :
  value scope = Some v -> getType v ≠ "object" ->
  execute (Identifier name) scope = Ok (Some NULL_VALUE).
Proof. intros Hv Hty. simpl. rewrite Hv. simpl. by rewrite eqb_false. Qed.

Lemma Identifier_missing_key name scope m :
  value scope = Some (StaticValue (DObj m)) ->
  m !! "hasOwnProperty" = None -> m !! name = None ->
  execute (Identifier name) scope = Ok (Some NULL_VALUE).
Proof.
  intros Hv Hown Hm. simpl. rewrite Hv. simpl.
  unfold hasOwnProperty. rewrite Hown. simpl. by rewrite Hm.
Qed.

Lemma Flatten_non_array base scope bv :
  execute base scope = Ok (Some bv) -> getType bv ≠ "array" ->
  execute (Flatten base) scope = Ok (Some NULL_VALUE).
Proof. intros Hb Hty. simpl. rewrite Hb. simpl. by rewrite differs_true. Qed.

Lemma Deref_non_object base scope bv :
  execute base scope = Ok (Some bv) -> getType bv ≠ "object" ->
  execute (Deref base) scope = Ok (Some NULL_VALUE).
Proof. intros Hb Hty. simpl. rewrite Hb. simpl. by rewrite differs_true. Qed.

Lemma Deref_no_ref base scope m :
  execute base scope = Ok (Some (StaticValue (DObj m))) ->
  (forall id, m !! "_ref" ≠ Some (DStr id)) ->
  execute (Deref base) scope = Ok (Some NULL_VALUE).
Proof.
  intros Hb Hm. simpl. rewrite Hb. simpl.
  destruct (m !! "_ref") as [[]|] eqn:E; try done. by destruct (Hm s).
Qed.

(** ** Array.prototype.slice on bounds that are not negative *)

Lemma slice_take_drop {A} (l : list A) (lo hi : Z) :
  0 <= lo -> 0 <= hi ->
  slice l lo hi = take (Z.to_nat hi - Z.to_nat lo) (drop (Z.to_nat lo) l).
Proof.
  intros Hlo Hhi. unfold slice, relative_index.
  destruct (Z.ltb_spec lo 0), (Z.ltb_spec hi 0); try lia.
  destruct (Z.le_gt_cases (Z.of_nat (length l)) lo) as [Hge|Hlt].
  - rewrite !drop_ge by lia. by rewrite !take_nil.
  - rewrite (Z.min_l lo) by lia.
    destruct (Z.le_gt_cases hi (Z.of_nat (length l))).
    + rewrite (Z.min_l hi) by lia. f_equal. lia.
    + rewrite (Z.min_r hi) by lia.
      rewrite !take_ge; [done | rewrite length_drop; lia | rewrite length_drop; lia].
Qed.

Lemma lookup_take_drop {A} (l : list A) (lo hi : Z) (k : nat) :
  0 <= lo -> 0 <= hi ->
  take (Z.to_nat hi - Z.to_nat lo) (drop (Z.to_nat lo) l) !! k =
    if decide (lo + Z.of_nat k < hi) then l !! (Z.to_nat lo + k)%nat else None.
Proof.
  intros Hlo Hhi. destruct (decide (lo + Z.of_nat k < hi)).
  - rewrite lookup_take_lt by lia. apply lookup_drop.
  - apply lookup_take_ge. lia.
Qed.

(** ** Element *)

(** C5.  For an [Element] node whose base evaluates to a Value: a base that
    is not an array yields the null Value; an index that is not a number
    yields the null Value; on an array materialising to [A] and a numeric
    index [i], a negative [i] is normalised to [length A + i], a normalised
    index inside [0, length A) yields the element at that index as an eager
    Value, and one outside yields the null Value. *)
Theorem Element_spec base index scope bv :
  execute base scope = Ok (Some bv) ->
  (getType bv ≠ "array" ->
     execute (Element base index) scope = Ok (Some NULL_VALUE))
  /\ (forall iv,
        getType bv = "array" ->
        execute index scope = Ok (Some iv) -> getType iv ≠ "number" ->
        execute (Element base index) scope = Ok (Some NULL_VALUE))
  /\ (forall A iv,
        get bv = Ok (DArr A) ->
        execute index scope = Ok (Some iv) -> getType iv = "number" ->
        exists i, iv = StaticValue (DNum i) /\
          let len := Z.of_nat (length A) in
          let j := if decide (i < 0) then len + i else i in
          (0 <= j < len ->
             exists x, A !! Z.to_nat j = Some x /\
               execute (Element base index) scope = Ok (Some (StaticValue x)))
          /\ (¬ (0 <= j < len) ->
                execute (Element base index) scope = Ok (Some NULL_VALUE))).
Proof.
  intros Hb. split; [|split].
  - intros Hty. by eapply Element_non_array.
  - intros iv Hty Hi Hity. by eapply Element_non_number.
  - intros A iv Hget Hi Hity.
    destruct (getType_number _ Hity) as [i ->]. exists i. split; [done|].
    intros len j. rewrite (Element_array _ _ _ _ _ _ Hb Hget Hi).
    cbv zeta. fold len.
    assert (Hj : (if Z.ltb i 0 then len + i else i) = j)
      by (subst j; destruct (Z.ltb_spec i 0), (decide (i < 0)); lia).
    rewrite Hj. clear Hj. split.
    + intros Hj.
      destruct (Z.leb_spec 0 j), (Z.ltb_spec j len); try lia. simpl.
      destruct (lookup_lt_is_Some_2 A (Z.to_nat j)) as [x Hx]; [lia|].
      exists x. split; [done|]. by rewrite (list_lookup_total_correct _ _ _ Hx).
    + intros Hj.
      destruct (Z.leb_spec 0 j), (Z.ltb_spec j len); try lia; done.
Qed.

(** ** Slice *)

(** The executor of [Slice] on an array and two numbers. *)
Lemma Slice_array base left_ right_ isExclusive scope bv A l r :
  execute base scope = Ok (Some bv) -> get bv = Ok (DArr A) ->
  execute left_ scope = Ok (Some (StaticValue (DNum l))) ->
  execute right_ scope = Ok (Some (StaticValue (DNum r))) ->
  execute (Slice base left_ right_ isExclusive) scope =
    let len := Z.of_nat (length A) in
    let leftIdx := if Z.ltb l 0 then len + l else l in
    let rightIdx := if Z.ltb r 0 then len + r else r in
    let rightIdx := if negb isExclusive then rightIdx + 1 else rightIdx in
    let leftIdx := if Z.ltb leftIdx 0 then 0 else leftIdx in
    let rightIdx := if Z.ltb rightIdx 0 then 0 else rightIdx in
    Ok (Some (StaticValue (DArr (slice A leftIdx rightIdx)))).
Proof.
  intros Hb Hget Hl Hr. simpl. rewrite Hb. simpl.
  rewrite (get_array_type _ _ Hget), differs_false.
  rewrite Hl, Hr. simpl. rewrite Hget. simpl. done.
Qed.

(** A bound that is not a number: the executor returns the bare [null]. *)
Lemma Slice_bound_mismatch base left_ right_ isExclusive scope bv lv rv :
  execute base scope = Ok (Some bv) -> getType bv = "array" ->
  execute left_ scope = Ok (Some lv) -> execute right_ scope = Ok (Some rv) ->
  getType lv ≠ "number" \/ getType rv ≠ "number" ->
  execute (Slice base left_ right_ isExclusive) scope = Ok None.
Proof.
  intros Hb Hty Hl Hr Hmis. simpl. rewrite Hb. simpl.
  rewrite Hty, differs_false, Hl, Hr. simpl.
  destruct (decide (getType lv = "number")) as [El|Nl].
  - rewrite El, differs_false. destruct Hmis as [?|Nr]; [done|].
    by rewrite (differs_true _ _ Nr).
  - by rewrite (differs_true _ _ Nl).
Qed.

(** The bare [null] is no Value: an executor that calls a method on it
    throws. *)
Lemma Slice_bound_mismatch_Not base left_ right_ isExclusive scope bv lv rv :
  execute base scope = Ok (Some bv) -> getType bv = "array" ->
  execute left_ scope = Ok (Some lv) -> execute right_ scope = Ok (Some rv) ->
  getType lv ≠ "number" \/ getType rv ≠ "number" ->
  execute (Not (Slice base left_ right_ isExclusive)) scope
    = Throw (TypeError "getBoolean").
Proof.
  intros Hb Hty Hl Hr Hmis.
  change (execute (Not (Slice base left_ right_ isExclusive)) scope)
    with (value ← execute (Slice base left_ right_ isExclusive) scope;
          b ← ref_getBoolean value;
          Ok (Some (if (b : bool) then FALSE_VALUE else TRUE_VALUE))).
  by rewrite (Slice_bound_mismatch _ _ _ _ _ _ _ _ Hb Hty Hl Hr Hmis).
Qed.

(** C6.  For a [Slice] node over an array materialising to [A] with numeric
    bounds [l] and [r]: negative bounds are normalised by adding the length;
    an inclusive range increments the normalised right bound; both bounds
    are then clamped to be non-negative, and the result holds the elements
    [A[lo + k]] for [lo + k] below the right bound [hi], which is exclusive
    and is not clamped to the length.  In particular
    [Slice([1,2,3,4], 1, 2)] is [[2,3]] when inclusive and [[2]] when
    exclusive. *)
Theorem Slice_spec :
  (forall base left_ right_ (isExclusive : bool) scope bv A lv rv,
     execute base scope = Ok (Some bv) -> get bv = Ok (DArr A) ->
     execute left_ scope = Ok (Some lv) -> getType lv = "number" ->
     execute right_ scope = Ok (Some rv) -> getType rv = "number" ->
     exists l r, lv = StaticValue (DNum l) /\ rv = StaticValue (DNum r) /\
       let len := Z.of_nat (length A) in
       let l1 := if decide (l < 0) then len + l else l in
       let r1 := if decide (r < 0) then len + r else r in
       let r2 := if isExclusive then r1 else r1 + 1 in
       let lo := Z.max 0 l1 in
       let hi := Z.max 0 r2 in
       exists S,
         execute (Slice base left_ right_ isExclusive) scope
           = Ok (Some (StaticValue (DArr S)))
         /\ S = take (Z.to_nat hi - Z.to_nat lo) (drop (Z.to_nat lo) A)
         /\ (forall k : nat,
               S !! k = if decide (lo + Z.of_nat k < hi)
                        then A !! (Z.to_nat lo + k)%nat else None)
         /\ (Z.of_nat (length A) <= hi -> S = drop (Z.to_nat lo) A))
  /\ (forall scope,
        execute (Slice (Value (DArr [DNum 1; DNum 2; DNum 3; DNum 4]))
                   (Value (DNum 1)) (Value (DNum 2)) false) scope
        = Ok (Some (StaticValue (DArr [DNum 2; DNum 3]))))
  /\ (forall scope,
        execute (Slice (Value (DArr [DNum 1; DNum 2; DNum 3; DNum 4]))
                   (Value (DNum 1)) (Value (DNum 2)) true) scope
        = Ok (Some (StaticValue (DArr [DNum 2])))).
Proof.
  split; [|split; intros scope; reflexivity].
  intros base left_ right_ isExclusive scope bv A lv rv Hb Hget Hl Hlty Hr Hrty.
  destruct (getType_number _ Hlty) as [l ->].
  destruct (getType_number _ Hrty) as [r ->].
  exists l, r. do 2 (split; [done|]).
  intros len l1 r1 r2 lo hi.
  exists (take (Z.to_nat hi - Z.to_nat lo) (drop (Z.to_nat lo) A)).
  assert (Hlo : 0 <= lo) by lia. assert (Hhi : 0 <= hi) by lia.
  split; [|split; [done|split]].
  - rewrite (Slice_array _ _ _ _ _ _ _ _ _ Hb Hget Hl Hr). simpl.
    rewrite <- (slice_take_drop A lo hi Hlo Hhi).
    do 4 f_equal. f_equal.
    + subst lo l1 len. destruct (Z.ltb_spec l 0), (decide (l < 0)); try lia;
        match goal with |- context [Z.ltb ?a 0] => destruct (Z.ltb_spec a 0) end; lia.
    + subst hi r2 r1 len.
      destruct (Z.ltb_spec r 0), (decide (r < 0)), isExclusive; simpl; try lia;
        match goal with |- context [Z.ltb ?a 0] => destruct (Z.ltb_spec a 0) end; lia.
  - intros k. by apply lookup_take_drop.
  - intros Hge. apply take_ge. rewrite length_drop. lia.
Qed.

(** ** Generators *)

Lemma for_of_yields {A} (body : A -> gen) (f : A -> list (option val)) (l : list A) :
  Forall (fun x => body x = (f x, None)) l ->
  for_of body l = (concat (map f l), None).
Proof.
  induction 1 as [|x l Hx _ IH]; [done|].
  simpl. rewrite Hx, IH. done.
Qed.

Lemma for_of_yield (l : list (option val)) : for_of yield l = (l, None).
Proof. induction l as [|x l IH]; [done|]. simpl. by rewrite IH. Qed.

Lemma for_await_yields (s : gen) (body : option val -> gen) f :
  s.2 = None -> Forall (fun x => body x = (f x, None)) s.1 ->
  for_await s body = (concat (map f s.1), None).
Proof.
  intros Htail Hbody. unfold for_await.
  rewrite (for_of_yields _ _ _ Hbody), Htail. unfold gen_then. simpl.
  by rewrite app_nil_r.
Qed.

(** A loop whose body yields its element or nothing yields a subsequence of
    what it iterates over, also when it is ended by an exception. *)
Lemma for_of_sublist (body : option val -> gen) (l : list (option val)) :
  (forall x, (body x).1 `sublist_of` [x]) ->
  (for_of body l).1 `sublist_of` l.
Proof.
  intros Hbody. induction l as [|x l IH]; [done|].
  simpl. unfold gen_then. destruct (body x).2 eqn:E.
  - transitivity [x]; [apply Hbody|]. apply (sublist_app [x] [x] [] l); [done|].
    apply sublist_nil_l.
  - simpl. apply (sublist_app _ [x] _ l); [apply Hbody | apply IH].
Qed.

Lemma for_await_sublist (s : gen) (body : option val -> gen) :
  (forall x, (body x).1 `sublist_of` [x]) ->
  (for_await s body).1 `sublist_of` s.1.
Proof.
  intros Hbody. unfold for_await, gen_then.
  destruct (for_of body s.1).2 eqn:E; simpl.
  - by apply for_of_sublist.
  - rewrite app_nil_r. by apply for_of_sublist.
Qed.

Lemma concat_map_filter {A} (P : A -> bool) (l : list A) :
  concat (map (fun x => if P x then [x] else []) l) = List.filter P l.
Proof.
  induction l as [|x l IH]; [done|]. simpl. rewrite IH. by destruct (P x).
Qed.

(** ** Materialisation *)

Lemma get_StreamValue elems tail :
  get (StreamValue elems tail) = l ← drain tail elems; Ok (DArr l).
Proof.
  simpl. f_equal. induction elems as [|[x|] elems IH]; simpl; try done.
  by rewrite IH.
Qed.

Lemma get_iterate (v : val) :
  getType v = "array" ->
  get v = l ← drain (iterate v).2 (iterate v).1; Ok (DArr l).
Proof.
  destruct v as [[]|elems tail]; try discriminate; intros _.
  - simpl iterate. simpl fst. simpl snd.
    rewrite <- get_StreamValue. by rewrite get_stream_static.
  - apply get_StreamValue.
Qed.

Lemma drain_Ok_tail tail elems A : drain tail elems = Ok A -> tail = None.
Proof.
  revert A. induction elems as [|[x|] elems IH]; simpl; intros A.
  - by destruct tail.
  - destruct (get x); simpl; [|done].
    destruct (drain tail elems) eqn:E; simpl; [|done]. intros _. by eapply IH.
  - done.
Qed.

(** Materialisation maps a subsequence of a stream to a subsequence of its
    data. *)
Lemma drain_sublist elems' elems :
  elems' `sublist_of` elems ->
  forall A, drain None elems = Ok A ->
  exists A', drain None elems' = Ok A' /\ A' `sublist_of` A.
Proof.
  induction 1 as [|[x|] l1 l2 _ IH|[x|] l1 l2 _ IH]; intros A; simpl.
  - intros [= <-]. by exists [].
  - destruct (get x) as [d|]; simpl; [|done].
    destruct (drain None l2) as [ds|] eqn:E; simpl; [|done]. intros [= <-].
    destruct (IH ds eq_refl) as (A' & -> & Hsub). simpl.
    exists (d :: A'). split; [done|]. by constructor.
  - done.
  - destruct (get x) as [d|]; simpl; [|done].
    destruct (drain None l2) as [ds|] eqn:E; simpl; [|done]. intros [= <-].
    destruct (IH ds eq_refl) as (A' & HA' & Hsub).
    exists A'. split; [done|]. by constructor.
  - done.
Qed.

Lemma drain_filter_static (P : data -> bool) (l : list data) :
  drain None (List.filter (fun x => match x with
                                    | Some (StaticValue d) => P d
                                    | _ => false
                                    end)
                (map (fun d => Some (StaticValue d)) l))
  = Ok (List.filter P l).
Proof.
  induction l as [|d l IH]; [done|]. simpl.
  destruct (P d); simpl; by rewrite IH.
Qed.

(** ** Filter *)

(** The body of the generator of [Filter] yields its element or nothing. *)
Lemma Filter_body_sublist query scope (x : option val) :
  (gen_await (execute query (createNested scope x)) (fun condValue =>
   gen_await (ref_getBoolean condValue) (fun cond : bool =>
   if cond then yield x else gen_return))).1 `sublist_of` [x].
Proof.
  destruct (execute query (createNested scope x)) as [[c|]|]; simpl;
    try apply sublist_nil_l.
  destruct (getBoolean c); simpl; [done | apply sublist_nil_l].
Qed.

Lemma Filter_array base query scope bv :
  execute base scope = Ok (Some bv) -> getType bv = "array" ->
  execute (Filter base query) scope =
    Ok (Some (new_StreamValue (for_await (iterate bv) (fun value =>
      gen_await (execute query (createNested scope value)) (fun condValue =>
      gen_await (ref_getBoolean condValue) (fun cond : bool =>
      if cond then yield value else gen_return)))))).
Proof. intros Hb Hty. simpl. rewrite Hb. simpl. by rewrite Hty, differs_false. Qed.

(** C9.  For a [Filter] node whose base evaluates to a Value: a base that is
    not an array yields the null Value; over an array the result is a stream
    whose elements are a subsequence of the elements of the base, namely,
    when the predicate evaluates on every element, exactly the elements on
    which the predicate (evaluated in a nested scope with the element as
    current value) coerces to [true], in their original order; the
    materialisation of the result is then a subsequence of the
    materialisation of the base. *)
Theorem Filter_spec base query scope bv :
  execute base scope = Ok (Some bv) ->
  (getType bv ≠ "array" ->
     execute (Filter base query) scope = Ok (Some NULL_VALUE))
  /\ (getType bv = "array" ->
      exists elems tail,
        execute (Filter base query) scope = Ok (Some (StreamValue elems tail))
        /\ elems `sublist_of` (iterate bv).1
        /\ (forall P : option val -> bool,
              (iterate bv).2 = None ->
              Forall (fun x => exists c,
                        execute query (createNested scope x) = Ok (Some c)
                        /\ getBoolean c = P x) (iterate bv).1 ->
              elems = List.filter P (iterate bv).1 /\ tail = None
              /\ forall A, get bv = Ok (DArr A) ->
                   exists A', get (StreamValue elems tail) = Ok (DArr A')
                              /\ A' `sublist_of` A))
  /\ (forall (A : list data) (P : data -> bool),
        bv = StaticValue (DArr A) ->
        Forall (fun d => exists c,
                  execute query (createNested scope (Some (StaticValue d)))
                    = Ok (Some c)
                  /\ getBoolean c = P d) A ->
        exists fv,
          execute (Filter base query) scope = Ok (Some fv)
          /\ get fv = Ok (DArr (List.filter P A))
          /\ List.filter P A `sublist_of` A).
Proof.
  intros Hb. split; [|split].
  - intros Hty. by eapply Filter_non_array.
  - intros Hty. rewrite (Filter_array _ _ _ _ Hb Hty).
    eexists _, _. split; [reflexivity|]. split.
    { apply for_await_sublist. intros x. apply Filter_body_sublist. }
    intros P Htail Hpred.
    rewrite (for_await_yields _ _ (fun x => if P x then [x] else []) Htail).
    2:{ eapply Forall_impl; [exact Hpred|]. intros x (c & -> & <-). simpl.
        by destruct (getBoolean c). }
    cbn [fst snd]. rewrite concat_map_filter. do 2 (split; [done|]).
    intros A Hget. rewrite get_StreamValue.
    rewrite (get_iterate _ Hty), Htail in Hget.
    destruct (drain None (iterate bv).1) as [ds|] eqn:E; [|done].
    injection Hget as <-.
    destruct (drain_sublist (List.filter P (iterate bv).1) (iterate bv).1)
      with (A := ds) as (A' & HA' & Hsub); [|done|].
    { clear. induction (iterate bv).1 as [|x l IH]; simpl; [done|].
      destruct (P x); by constructor. }
    exists A'. by rewrite HA'.
  - intros A P -> Hpred.
    rewrite (Filter_array _ _ _ _ Hb eq_refl).
    eexists. split; [reflexivity|].
    set (P' := fun x : option val =>
                 match x with Some (StaticValue d) => P d | _ => false end).
    rewrite (for_await_yields (iterate (StaticValue (DArr A))) _
               (fun x => if P' x then [x] else []) eq_refl).
    2:{ simpl. apply Forall_map. eapply Forall_impl; [exact Hpred|].
        intros d (c & -> & Hp). subst P'. simpl. rewrite <- Hp.
        by destruct (getBoolean c). }
    unfold new_StreamValue. cbn [fst snd iterate].
    rewrite concat_map_filter, get_StreamValue.
    subst P'. rewrite drain_filter_static. split; [done|].
    clear. induction A as [|x l IH]; simpl; [done|].
    destruct (P x); by constructor.
Qed.

(** ** Flatten *)

Lemma Flatten_array base scope bv :
  execute base scope = Ok (Some bv) -> getType bv = "array" ->
  execute (Flatten base) scope =
    Ok (Some (new_StreamValue (for_await (iterate bv) (fun value =>
      gen_await (ref_getType value) (fun vty =>
      if String.eqb vty "array" then
        for_await (ref_iterate value) (fun element =>
          yield element)
      else yield (Some NULL_VALUE)))))).
Proof. intros Hb Hty. simpl. rewrite Hb. simpl. by rewrite Hty, differs_false. Qed.

(** C7.  For a [Flatten] node whose base evaluates to a Value: a base that is
    not an array yields the null Value; over an array the result is a stream
    that, in the order of the base, yields the elements of every element
    that is an array (one level only: these are yielded as they are) and one
    null Value in place of every other element.  In particular
    [Flatten([[1,2],3,[4]])] materialises to [[1,2,null,4]]. *)
Theorem Flatten_spec :
  (forall base scope bv,
     execute base scope = Ok (Some bv) ->
     (getType bv ≠ "array" ->
        execute (Flatten base) scope = Ok (Some NULL_VALUE))
     /\ (getType bv = "array" ->
         exists elems tail,
           execute (Flatten base) scope = Ok (Some (StreamValue elems tail))
           /\ forall vs,
                iterate bv = (map Some vs, None) ->
                Forall (fun v => getType v = "array" -> (iterate v).2 = None) vs ->
                elems = concat (map flattened vs) /\ tail = None))
  /\ (forall scope,
        execute (Flatten (Value (DArr [DArr [DNum 1; DNum 2]; DNum 3; DArr [DNum 4]])))
          scope ≫= ref_get
        = Ok (DArr [DNum 1; DNum 2; DNull; DNum 4])).
Proof.
  split; [|reflexivity]. intros base scope bv Hb. split.
  - intros Hty. by eapply Flatten_non_array.
  - intros Hty. rewrite (Flatten_array _ _ _ Hb Hty).
    eexists _, _. split; [reflexivity|].
    intros vs Hit Hinner. rewrite Hit.
    rewrite (for_await_yields (map Some vs, None) _
               (fun x => from_option flattened [] x) eq_refl).
    2:{ simpl. apply Forall_map. eapply Forall_impl; [exact Hinner|].
        intros v Hv. simpl. unfold flattened.
        destruct (String.eqb_spec (getType v) "array") as [E|E]; [|done].
        unfold for_await. rewrite for_of_yield. unfold gen_then. simpl.
        rewrite app_nil_r, (Hv E). done. }
    simpl. split; [|done]. f_equal. rewrite map_map. done.
Qed.

(** ** Deref *)

Lemma Deref_object base scope m id :
  execute base scope = Ok (Some (StaticValue (DObj m))) ->
  m !! "_ref" = Some (DStr id) ->
  execute (Deref base) scope =
    Deref_scan id (map (fun d => Some (StaticValue d)) (documents (source scope))) None.
Proof. intros Hb Hm. simpl. rewrite Hb. simpl. by rewrite Hm. Qed.

Lemma Deref_scan_skip id d docs tail :
  d ≠ DNull -> has_id id d = false ->
  Deref_scan id (Some (StaticValue d) :: docs) tail = Deref_scan id docs tail.
Proof.
  intros Hnull Hid. simpl.
  destruct d as [| | | | |m]; simpl; try done.
  simpl in Hid. destruct (m !! "_id") as [[]|]; try done. by rewrite Hid.
Qed.

Lemma Deref_scan_hit id d docs tail :
  has_id id d = true ->
  Deref_scan id (Some (StaticValue d) :: docs) tail = Ok (Some (StaticValue d)).
Proof.
  intros Hid. destruct d as [| | | | |m]; try done. simpl in *.
  destruct (m !! "_id") as [[]|]; try done. by rewrite Hid.
Qed.

Lemma Deref_scan_first id pre d post :
  Forall (fun x => x ≠ DNull /\ has_id id x = false) pre -> has_id id d = true ->
  Deref_scan id (map (fun d => Some (StaticValue d)) (pre ++ d :: post)) None
    = Ok (Some (StaticValue d)).
Proof.
  intros Hpre Hd. induction Hpre as [|x pre [Hx1 Hx2] _ IH].
  - by apply Deref_scan_hit.
  - cbn [app map]. by rewrite Deref_scan_skip.
Qed.

Lemma Deref_scan_none id docs :
  Forall (fun x => x ≠ DNull /\ has_id id x = false) docs ->
  Deref_scan id (map (fun d => Some (StaticValue d)) docs) None
    = Ok (Some NULL_VALUE).
Proof.
  induction 1 as [|x docs [Hx1 Hx2] _ IH]; [done|].
  cbn [map]. by rewrite Deref_scan_skip.
Qed.

(** C8.  For a [Deref] node whose base evaluates to a Value: a base that is
    not an object yields the null Value; an object without a [_ref]
    property, or whose [_ref] is not a string, yields the null Value;
    otherwise the result is the first document of the source, in its order,
    whose [_id] is the [_ref] string, and the null Value when the source has
    no such document.  The documents scanned are taken to be other than
    [null].  In particular, with the documents
    [[{_id:"x",v:1},{_id:"y",v:2}]], the base [{_ref:"y"}] resolves to
    [{_id:"y",v:2}] and the base [{_ref:"z"}] to the null Value. *)
Theorem Deref_spec :
  (forall base scope bv,
     execute base scope = Ok (Some bv) ->
     (getType bv ≠ "object" ->
        execute (Deref base) scope = Ok (Some NULL_VALUE))
     /\ (getType bv = "object" ->
         exists m, bv = StaticValue (DObj m)
           /\ ((forall id, m !! "_ref" ≠ Some (DStr id)) ->
                 execute (Deref base) scope = Ok (Some NULL_VALUE))
           /\ (forall id pre d post,
                 m !! "_ref" = Some (DStr id) ->
                 documents (source scope) = (pre ++ d :: post)%list ->
                 Forall (fun x => x ≠ DNull /\ has_id id x = false) pre ->
                 has_id id d = true ->
                 execute (Deref base) scope = Ok (Some (StaticValue d)))
           /\ (forall id,
                 m !! "_ref" = Some (DStr id) ->
                 Forall (fun x => x ≠ DNull /\ has_id id x = false)
                   (documents (source scope)) ->
                 execute (Deref base) scope = Ok (Some NULL_VALUE))))
  /\ (forall ps value parent,
        let x := DObj {[ "_id" := DStr "x"; "v" := DNum 1 ]} in
        let y := DObj {[ "_id" := DStr "y"; "v" := DNum 2 ]} in
        let scope := new_Scope ps {| documents := [x; y] |} value parent in
        execute (Deref (Value (DObj {[ "_ref" := DStr "y" ]}))) scope
          = Ok (Some (StaticValue y))
        /\ execute (Deref (Value (DObj {[ "_ref" := DStr "z" ]}))) scope
          = Ok (Some NULL_VALUE)).
Proof.
  split; [|intros ps value parent; split; vm_compute; reflexivity].
  intros base scope bv Hb. split.
  - intros Hty. by eapply Deref_non_object.
  - intros Hty. destruct (getType_object _ Hty) as [m ->]. exists m.
    split; [done|]. split; [|split].
    + intros Hm. by eapply Deref_no_ref.
    + intros id pre d post Hm Hdocs Hpre Hd.
      rewrite (Deref_object _ _ _ _ Hb Hm), Hdocs. by apply Deref_scan_first.
    + intros id Hm Hdocs.
      rewrite (Deref_object _ _ _ _ Hb Hm). by apply Deref_scan_none.
Qed.

(** ** Object construction: the splat *)

(** C1.  An object construction made of one splat, evaluated where the
    current value is the eager object [{a: 1}].  The claim asks for the
    properties of the current value in the result, that is [{a: 1}]; the
    executor hands the Value object itself to [Object.assign] and the result
    is [{data: {a: 1}}], in which [a] is no key.  The executor of
    [Identifier], in the same scope, does read [a] from the current value.
    The rest of the claim holds of what is merged: a key set later in the
    attribute list overwrites the one set earlier, whichever of the two the
    splat sets.  From the entry point, the query [*{...}] over the
    documents [[{a: 1}]] materialises to [[{data: {a: 1}}]]. *)
Theorem Object_splat_copies_wrapper p s par :
  let this := DObj {[ "a" := DNum 1 ]} in
  let scope := new_Scope p s (Some (StaticValue this)) par in
  execute (Object [ObjectSplat]) scope
    = Ok (Some (StaticValue (DObj {[ "data" := this ]})))
  /\ ({[ "data" := this ]} : gmap string data) !! "a" = None
  /\ execute (Object [ObjectSplat]) scope ≠ Ok (Some (StaticValue this))
  /\ execute (Identifier "a") scope = Ok (Some (StaticValue (DNum 1)))
  /\ execute (Object [ObjectAttribute (Value (DStr "data")) (Value (DNum 5));
                       ObjectSplat]) scope
     = Ok (Some (StaticValue (DObj {[ "data" := this ]})))
  /\ execute (Object [ObjectSplat;
                       ObjectAttribute (Value (DStr "data")) (Value (DNum 5))]) scope
     = Ok (Some (StaticValue (DObj {[ "data" := DNum 5 ]})))
  /\ evaluate (Projection Star (Object [ObjectSplat]))
       {| options.documents := Some (DArr [this]); options.params := None |}
       ≫= ref_get
     = Ok (DArr [DObj {[ "data" := this ]}]).
Proof.
  intros this scope.
  assert (H : execute (Object [ObjectSplat]) scope
              = Ok (Some (StaticValue (DObj {[ "data" := this ]})))).
  { vm_compute. reflexivity. }
  split; [exact H|]. split; [done|]. split; [|split; [done|split; [|split]]].
  - rewrite H. intros E.
    apply (f_equal (fun r => match r with
                             | Ok (Some (StaticValue (DObj m))) => m !! "a"
                             | _ => None
                             end)) in E.
    vm_compute in E. discriminate.
  - vm_compute. reflexivity.
  - vm_compute. reflexivity.
  - vm_compute. reflexivity.
Qed.

(** ** The entry point *)

(** C3, as amended.  Documents that are left out or [null] make the
    evaluation run against an empty document source; documents that are
    given, are not [null] and are not an array make [evaluate] raise
    [documents must be an array] whatever the tree is, hence before any node
    is evaluated. *)
Theorem evaluate_documents :
  (forall opts,
     options.documents opts = None \/ options.documents opts = Some DNull ->
     exists params,
       forall tree,
         evaluate tree opts
         = execute tree (new_Scope params {| documents := [] |} (Some NULL_VALUE) None))
  /\ (forall opts d,
        options.documents opts = Some d -> d ≠ DNull -> isArray d = false ->
        forall tree,
          evaluate tree opts = Throw (Error "documents must be an array")).
Proof.
  split.
  - intros [docs ps] Hdocs. simpl in Hdocs. eexists. intros tree.
    unfold evaluate. simpl.
    destruct Hdocs as [-> | ->]; simpl; reflexivity.
  - intros [docs ps] d Hdocs Hnull Harr tree. simpl in Hdocs. subst docs.
    unfold evaluate. simpl. by destruct d.
Qed.

(** C10.  The parameters of the root scope, that is the own properties of
    its [params] object, are the caller's parameters merged over the default
    set [{identity: 'groot'}]: every binding of the caller under a name
    other than [__proto__] is in force, a caller's binding of [identity]
    included; the default [identity] stays in force when the caller binds
    other names only; nothing else is bound, and [__proto__] never is; and
    every nested scope has the parameters of the root scope. *)
Theorem evaluate_params opts src (p : gmap string data) :
  match options.documents opts with
  | None | Some DNull => src = []
  | Some d => d = DArr src
  end ->
  options.params opts = Some (DObj p) ->
  exists scope,
    (forall tree, evaluate tree opts = execute tree scope)
    /\ source scope = {| documents := src |}
    /\ (forall k v, k ≠ "__proto__" -> p !! k = Some v -> params scope !! k = Some v)
    /\ (p !! "identity" = None -> params scope !! "identity" = Some (DStr "groot"))
    /\ (forall k, k ≠ "identity" -> p !! k = None -> params scope !! k = None)
    /\ params scope !! "__proto__" = None
    /\ (forall (s : Scope) v, params (createNested s v) = params s).
Proof.
  intros Hdocs Hps.
  exists (new_Scope (assigned {[ "identity" := DStr "groot" ]} p)
            {| documents := src |} (Some NULL_VALUE) None).
  split; [|split; [done|split; [|split; [|split; [|split; [|done]]]]]].
  - intros tree. unfold evaluate. rewrite Hps. simpl.
    destruct (options.documents opts) as [[]|]; simpl; try done;
      try (injection Hdocs as ->); by subst.
  - intros k v Hne Hk. simpl. unfold assigned.
    apply lookup_union_Some_l. by rewrite lookup_delete_ne.
  - intros Hid. simpl. unfold assigned. rewrite lookup_union_r.
    + apply lookup_singleton_eq.
    + apply lookup_delete_None. by right.
  - intros k Hk Hp. simpl. unfold assigned. rewrite lookup_union_r.
    + by apply lookup_singleton_ne.
    + apply lookup_delete_None. by right.
  - simpl. unfold assigned. rewrite lookup_union_r.
    + by apply lookup_singleton_ne.
    + apply lookup_delete_None. by left.
Qed.

(** ** The loop of the Object executor *)

Lemma execute_Object attributes scope :
  execute (Object attributes) scope
  = Object_loop StreamValue_fields execute scope attributes ∅.
Proof.
  simpl. generalize (∅ : gmap string data).
  induction attributes as [|[|k v|type] rest IH]; intros acc; simpl; try done.
  - destruct (Object_assign StreamValue_fields acc (value scope)); simpl; [apply IH|done].
  - destruct (execute k scope) as [[key|]|]; simpl; try done.
    destruct (differs (getType key) "string"); [done|].
    destruct (execute v scope) as [[val|]|]; simpl; try done.
    destruct (String.eqb (getType val) "null"); [done|].
    destruct (get val) as [d|]; simpl; [|done].
    destruct (data_field key) as [[| | |name| |]|]; try done.
    destruct (set_property acc name d); simpl; [apply IH|done].
Qed.

(** The loop either raises an exception or returns an eager object. *)
Lemma Object_loop_object scope attributes acc r :
  Object_loop StreamValue_fields execute scope attributes acc = Ok r ->
  exists m, r = Some (StaticValue (DObj m)).
Proof.
  revert acc. induction attributes as [|[|k v|type] rest IH]; intros acc; simpl.
  - intros [= <-]. eauto.
  - destruct (Object_assign StreamValue_fields acc (value scope)); simpl; [apply IH|done].
  - destruct (execute k scope) as [[key|]|]; simpl; try done.
    destruct (differs (getType key) "string"); [apply IH|].
    destruct (execute v scope) as [[val|]|]; simpl; try done.
    destruct (String.eqb (getType val) "null"); [apply IH|].
    destruct (get val) as [d|]; simpl; [|done].
    destruct (data_field key) as [[| | |name| |]|]; try apply IH.
    destruct (set_property acc name d); simpl; [apply IH|done].
  - done.
Qed.

(** The loop over a list that ends with one more attribute specification. *)
Lemma Object_loop_app scope pre post acc :
  Object_loop StreamValue_fields execute scope (pre ++ post) acc
  = r ← Object_loop StreamValue_fields execute scope pre acc;
    match object_of r with
    | Some m => Object_loop StreamValue_fields execute scope post m
    | None => Ok r
    end.
Proof.
  revert acc. induction pre as [|[|k v|type] rest IH]; intros acc; simpl.
  - done.
  - destruct (Object_assign StreamValue_fields acc (value scope)); simpl; [apply IH|done].
  - destruct (execute k scope) as [[key|]|]; simpl; try done.
    destruct (differs (getType key) "string"); [apply IH|].
    destruct (execute v scope) as [[val|]|]; simpl; try done.
    destruct (String.eqb (getType val) "null"); [apply IH|].
    destruct (get val) as [d|]; simpl; [|done].
    destruct (data_field key) as [[| | |name| |]|]; try apply IH.
    destruct (set_property acc name d); simpl; [apply IH|done].
  - done.
Qed.

Lemma Attribute_eq base name scope :
  execute (Attribute base name) scope
  = baseValue ← execute base scope;
    ty ← ref_getType baseValue;
    if String.eqb ty "object" then
      baseData ← ref_get baseValue;
      match baseData with
      | DObj baseData =>
          own ← hasOwnProperty baseData name;
          match own with
          | Some x => Ok (Some (StaticValue x))
          | None => Ok (Some NULL_VALUE)
          end
      | _ => Ok (Some NULL_VALUE)
      end
    else Ok (Some NULL_VALUE).
Proof. reflexivity. Qed.

(** On an object without own property [hasOwnProperty], an attribute is
    the own property of that name, or the null Value. *)
Lemma Attribute_object base name scope m :
  execute base scope = Ok (Some (StaticValue (DObj m))) ->
  m !! "hasOwnProperty" = None ->
  execute (Attribute base name) scope
  = Ok (Some (from_option StaticValue NULL_VALUE (m !! name))).
Proof.
  intros Hb Hown. rewrite Attribute_eq, Hb. simpl.
  unfold hasOwnProperty. rewrite Hown. simpl. by destruct (m !! name).
Qed.

(** On an object with an own property [hasOwnProperty], reading any
    attribute throws. *)
Lemma Attribute_hidden_method base name scope m x :
  execute base scope = Ok (Some (StaticValue (DObj m))) ->
  m !! "hasOwnProperty" = Some x ->
  execute (Attribute base name) scope = Throw (TypeError "hasOwnProperty").
Proof.
  intros Hb Hown. rewrite Attribute_eq, Hb. simpl.
  unfold hasOwnProperty. by rewrite Hown.
Qed.

(** ** Induction on nodes *)

(** The induction principle of nodes, with the hypotheses for the nodes of a
    list of arguments, of elements and of attribute specifications. *)
Lemma node_induction (P : node -> Prop) :
  P This -> P Star -> P Parent ->
  (forall op l r, P l -> P r -> P (OpCall op l r)) ->
  (forall name args, Forall P args -> P (FuncCall name args)) ->
  (forall b q, P b -> P q -> P (Filter b q)) ->
  (forall b i, P b -> P i -> P (Element b i)) ->
  (forall b l r ex, P b -> P l -> P r -> P (Slice b l r ex)) ->
  (forall b name, P b -> P (Attribute b name)) ->
  (forall name, P (Identifier name)) ->
  (forall d, P (Value d)) ->
  (forall b q, P b -> P q -> P (Projection b q)) ->
  (forall b, P b -> P (Flatten b)) ->
  (forall b, P b -> P (Deref b)) ->
  (forall attrs, Forall (attribute_all P) attrs -> P (Object attrs)) ->
  (forall elements, Forall P elements -> P (Array elements)) ->
  (forall l r, P l -> P r -> P (And l r)) ->
  (forall b, P b -> P (Not b)) ->
  (forall type, P (UnknownNode type)) ->
  forall n, P n.
Proof.
  intros HThis HStar HParent HOp HFun HFilter HElement HSlice HAttr HId HValue
    HProj HFlatten HDeref HObject HArray HAnd HNot HUnknown.
  refine (fix IH (n : node) : P n :=
    match n with
    | This => HThis
    | Star => HStar
    | Parent => HParent
    | OpCall op l r => HOp op l r (IH l) (IH r)
    | FuncCall name args =>
        HFun name args
          ((fix all (l : list node) : Forall P l :=
              match l with
              | [] => @List.Forall_nil _ P
              | x :: rest => @List.Forall_cons _ P x rest (IH x) (all rest)
              end) args)
    | Filter b q => HFilter b q (IH b) (IH q)
    | Element b i => HElement b i (IH b) (IH i)
    | Slice b l r ex => HSlice b l r ex (IH b) (IH l) (IH r)
    | Attribute b name => HAttr b name (IH b)
    | Identifier name => HId name
    | Value d => HValue d
    | Projection b q => HProj b q (IH b) (IH q)
    | Flatten b => HFlatten b (IH b)
    | Deref b => HDeref b (IH b)
    | Object attrs =>
        HObject attrs
          ((fix all (l : list (attribute node)) : Forall (attribute_all P) l :=
              match l with
              | [] => @List.Forall_nil _ _
              | a :: rest =>
                  @List.Forall_cons _ _ a rest
                    (match a return attribute_all P a with
                     | ObjectSplat => I
                     | ObjectAttribute k v => conj (IH k) (IH v)
                     | UnknownAttribute _ => I
                     end)
                    (all rest)
              end) attrs)
    | Array elements =>
        HArray elements
          ((fix all (l : list node) : Forall P l :=
              match l with
              | [] => @List.Forall_nil _ P
              | x :: rest => @List.Forall_cons _ P x rest (IH x) (all rest)
              end) elements)
    | And l r => HAnd l r (IH l) (IH r)
    | Not b => HNot b (IH b)
    | UnknownNode type => HUnknown type
    end).
Qed.

(** ** The evaluator's own exceptions *)

Lemma prefix_app (s t : string) : String.prefix s (s ++ t) = true.
Proof.
  induction s as [|c s IH].
  - by destruct t.
  - change (String c s ++ t) with (String c (s ++ t)). simpl.
    by destruct (Ascii.ascii_dec c c).
Qed.

Lemma own_error_executor type :
  own_error (Error ("No executor for node.type=" ++ type)) = true.
Proof. unfold own_error. by rewrite prefix_app. Qed.

Lemma own_error_operator op :
  own_error (Error ("Unknown operator: " ++ op)) = true.
Proof. unfold own_error. rewrite (prefix_app "Unknown operator: "). by rewrite !orb_true_r. Qed.

Lemma own_error_function name :
  own_error (Error ("Unknown function: " ++ name)) = true.
Proof. unfold own_error. rewrite (prefix_app "Unknown function: "). by rewrite !orb_true_r. Qed.

Lemma own_error_attribute type :
  own_error (Error ("Unknown node type: " ++ type)) = true.
Proof. unfold own_error. rewrite (prefix_app "Unknown node type: "). by rewrite !orb_true_r. Qed.

Lemma number_literal_inv (n : node) :
  number_literal n = true -> exists z, n = Value (DNum z).
Proof. destruct n as [| | | | | | | | | |[]| | | | | | | |]; try discriminate. eauto. Qed.

Lemma val_induction (P : val -> Prop) :
  (forall d, P (StaticValue d)) ->
  (forall elems tail,
     Forall (fun r => match r with Some x => P x | None => True end) elems ->
     P (StreamValue elems tail)) ->
  forall v, P v.
Proof.
  intros HStatic HStream.
  refine (fix IH (v : val) : P v :=
    match v with
    | StaticValue d => HStatic d
    | StreamValue elems tail =>
        HStream elems tail
          ((fix all (l : list (option val)) : Forall _ l :=
              match l with
              | [] => @List.Forall_nil _ _
              | r :: rest =>
                  @List.Forall_cons _ _ r rest
                    (match r return match r with Some x => P x | None => True end with
                     | Some x => IH x
                     | None => I
                     end) (all rest)
              end) elems)
    end).
Qed.

(** ** Plain data *)

Lemma forallb_Forall {A} (f : A -> bool) (l : list A) :
  forallb f l = true <-> Forall (fun x => f x = true) l.
Proof.
  induction l as [|x l IH]; simpl.
  - split; [constructor|done].
  - rewrite andb_true_iff, IH. split.
    + intros [? ?]. by constructor.
    + by inversion 1.
Qed.

(** An object is plain when it has no own property [hasOwnProperty] and
    each of its properties is plain. *)
Lemma plain_DObj (m : gmap string data) :
  plain (DObj m) = true <->
  m !! "hasOwnProperty" = None /\ forall k v, m !! k = Some v -> plain v = true.
Proof.
  cbn [plain]. rewrite andb_true_iff.
  assert (Hfold : map_fold (fun _ x rest => plain x && rest) true m = true
                  <-> forall k v, m !! k = Some v -> plain v = true).
  { apply (map_fold_weak_ind
             (fun r m => r = true <-> forall k v, m !! k = Some v -> plain v = true)).
    - split; [|done]. intros _ k v. by rewrite lookup_empty.
    - intros i x m' r Hi IH. rewrite andb_true_iff, IH. split.
      + intros [Hx Hm'] k v Hk.
        apply lookup_insert_Some in Hk as [[<- <-]|[_ Hk]]; [done|by eapply Hm'].
      + intros Hall. split.
        * apply (Hall i). apply lookup_insert_eq.
        * intros k v Hk. apply (Hall k). rewrite lookup_insert_ne; [done|].
          intros <-. congruence. }
  rewrite Hfold. destruct (m !! "hasOwnProperty"); split; intros [? ?]; done.
Qed.

Lemma plain_empty : plain (DObj ∅) = true.
Proof. apply plain_DObj. split; [done|]. intros k v. by rewrite lookup_empty. Qed.

Lemma plain_insert (m : gmap string data) (k : string) (d : data) :
  plain (DObj m) = true -> plain d = true -> k ≠ "hasOwnProperty" ->
  plain (DObj (<[k := d]> m)) = true.
Proof.
  rewrite !plain_DObj. intros [Hown Hall] Hd Hk. split.
  - by rewrite lookup_insert_ne.
  - intros k' v Hk'. apply lookup_insert_Some in Hk' as [[_ <-]|[_ Hk']]; [done|].
    by eapply Hall.
Qed.

Lemma plain_assigned (target source : gmap string data) :
  plain (DObj target) = true -> plain (DObj source) = true ->
  plain (DObj (assigned target source)) = true.
Proof.
  rewrite !plain_DObj. unfold assigned. intros [Htown Htall] [Hsown Hsall]. split.
  - apply lookup_union_None. split; [|done].
    apply lookup_delete_None. by right.
  - intros k v Hk. apply lookup_union_Some_raw in Hk as [Hk|[_ Hk]].
    + apply lookup_delete_Some in Hk as [_ Hk]. by eapply Hsall.
    + by eapply Htall.
Qed.

(** The element of a plain array at any index is plain; out of range it is
    the default of the lookup. *)
Lemma plain_lookup_total (l : list data) (i : nat) :
  forallb plain l = true -> plain (l !!! i) = true.
Proof.
  revert i. induction l as [|x l IH]; intros [|i] Hl; try done;
    simpl in Hl; apply andb_prop in Hl as [Hx Hl]; [done|by apply IH].
Qed.

Lemma plain_slice (l : list data) (lo hi : Z) :
  forallb plain l = true -> forallb plain (slice l lo hi) = true.
Proof.
  rewrite !forallb_Forall. intros Hl. unfold slice.
  by apply Forall_take, Forall_drop.
Qed.

(** [Object.assign] of the own properties of a well-formed Value. *)
Lemma assign_plain (target source : gmap string data) :
  plain (DObj target) = true -> plain (DObj source) = true ->
  source !! "__proto__" = None ->
  exists result,
    assign target source = Ok result /\ plain (DObj result) = true.
Proof.
  intros Ht Hs Hproto. exists (assigned target source). split.
  - unfold assign. by rewrite Hproto.
  - by apply plain_assigned.
Qed.

(** ** Well-formed outcomes *)

(** Materialising a well-formed Value gives plain data or one of the
    evaluator's own exceptions. *)
Lemma get_wf (v : val) :
  wf_val v = true ->
  match get v with Ok d => plain d = true | Throw e => own_error e = true end.
Proof.
  induction v as [d|elems tail IH] using val_induction; [done|].
  intros Hwf. simpl in Hwf. apply andb_prop in Hwf as [Helems Htail].
  rewrite get_StreamValue.
  assert (Hdrain : match drain tail elems with
                   | Ok l => forallb plain l = true
                   | Throw e => own_error e = true
                   end).
  { induction IH as [|[x|] rest Hx _ IHrest]; simpl in *.
    - by destruct tail.
    - apply andb_prop in Helems as [Hwx Hrest].
      specialize (Hx Hwx). destruct (get x); simpl; [|done].
      specialize (IHrest Hrest). destruct (drain tail rest); simpl; [|done].
      by rewrite Hx, IHrest.
    - done. }
  by destruct (drain tail elems).
Qed.

Lemma wf_iterate (v : val) :
  wf_val v = true -> getType v = "array" -> wf_gen (iterate v) = true.
Proof.
  destruct v as [[]|elems tail]; try discriminate; intros Hwf _.
  - unfold wf_gen. cbn [iterate fst snd from_option]. rewrite andb_true_r.
    cbn [wf_val plain] in Hwf. rewrite forallb_forall in Hwf.
    apply forallb_forall. intros r Hr. apply in_map_iff in Hr as (d & <- & Hd).
    by apply Hwf.
  - exact Hwf.
Qed.

Lemma wf_gen_then (g k : gen) :
  wf_gen g = true -> wf_gen k = true -> wf_gen (gen_then g k) = true.
Proof.
  unfold wf_gen, gen_then. destruct g as [g1 [e|]]; simpl; intros Hg Hk; [done|].
  apply andb_prop in Hg as [Hg _]. apply andb_prop in Hk as [Hk1 Hk2].
  rewrite forallb_app, Hg, Hk1. done.
Qed.

Lemma wf_for_of {A} (body : A -> gen) (l : list A) :
  Forall (fun x => wf_gen (body x) = true) l -> wf_gen (for_of body l) = true.
Proof.
  induction 1 as [|x l Hx _ IH]; [done|]. simpl. by apply wf_gen_then.
Qed.

Lemma wf_for_await (s : gen) (body : option val -> gen) :
  wf_gen s = true ->
  (forall v, wf_val v = true -> wf_gen (body (Some v)) = true) ->
  wf_gen (for_await s body) = true.
Proof.
  intros Hs Hbody. unfold for_await. apply andb_prop in Hs as [Hs1 Hs2].
  apply wf_gen_then.
  - apply wf_for_of. apply Forall_forall. intros [v|] Hr.
    + apply Hbody. rewrite forallb_forall in Hs1. by apply (Hs1 (Some v)), list_elem_of_In.
    + rewrite forallb_forall in Hs1. by specialize (Hs1 None (proj1 (list_elem_of_In _ _) Hr)).
  - unfold wf_gen. simpl. exact Hs2.
Qed.

Lemma wf_gen_await (r : result (option val)) (k : option val -> gen) :
  wf_outcome r = true ->
  (forall v, wf_val v = true -> r = Ok (Some v) -> wf_gen (k (Some v)) = true) ->
  wf_gen (gen_await r k) = true.
Proof.
  intros Hr Hk. destruct r as [[v|]|e]; simpl in *; try done.
  by apply Hk.
Qed.

Lemma wf_yield (v : val) : wf_val v = true -> wf_gen (yield (Some v)) = true.
Proof.
  intros Hv. unfold wf_gen, yield. cbn [fst snd forallb wf_ref from_option].
  by rewrite Hv.
Qed.

Lemma wf_new_StreamValue (g : gen) :
  wf_gen g = true -> wf_outcome (Ok (Some (new_StreamValue g))) = true.
Proof. done. Qed.

Lemma wf_createNested scope (v : val) :
  wf_scope scope = true -> wf_val v = true ->
  wf_scope (createNested scope (Some v)) = true.
Proof.
  destruct scope as [ps src v0 p]. unfold createNested. cbn -[wf_val plain].
  intros Hs Hv. rewrite Hv, Hs.
  apply andb_prop in Hs as [Hs _]. apply andb_prop in Hs as [_ Hdocs].
  by rewrite Hdocs.
Qed.

Lemma wf_scope_value scope : wf_scope scope = true -> wf_ref (value scope) = true.
Proof.
  destruct scope. cbn -[plain]. intros Hs.
  apply andb_prop in Hs as [Hs _]. by apply andb_prop in Hs as [? _].
Qed.

Lemma wf_scope_parent scope p :
  wf_scope scope = true -> parent scope = Some p -> wf_scope p = true.
Proof.
  destruct scope as [? ? ? q]. cbn -[plain]. intros Hs ->.
  by apply andb_prop in Hs as [_ ?].
Qed.

Lemma wf_scope_documents scope :
  wf_scope scope = true ->
  forallb (fun d => match d with DNull => false | _ => plain d end)
    (documents (source scope)) = true.
Proof.
  destruct scope. cbn -[plain]. intros Hs.
  apply andb_prop in Hs as [Hs _]. by apply andb_prop in Hs as [_ ?].
Qed.

Lemma wf_createSink scope :
  wf_scope scope = true -> wf_val (createSink (source scope)) = true.
Proof.
  intros Hs. apply wf_scope_documents in Hs. unfold createSink. cbn [wf_val plain].
  rewrite forallb_forall in *. intros d Hd. specialize (Hs d Hd). by destruct d.
Qed.

Lemma wf_Deref_scan id (docs : list data) :
  forallb (fun d => match d with DNull => false | _ => plain d end) docs = true ->
  wf_outcome (Deref_scan id (map (fun d => Some (StaticValue d)) docs) None) = true.
Proof.
  induction docs as [|d docs IH]; [done|]. intros Hdocs.
  cbn [forallb] in Hdocs. apply andb_prop in Hdocs as [Hd Hdocs]. specialize (IH Hdocs).
  cbn [map Deref_scan]. destruct d as [| | | | |m]; try done.
  cbn -[wf_outcome Deref_scan plain].
  destruct (m !! "_id") as [[]|]; try done.
  destruct (String.eqb id s); [|done]. exact Hd.
Qed.

(** Sequencing: the rest of an executor runs on a well-formed Value. *)
Lemma wf_bind (r : result (option val)) (k : option val -> result (option val)) :
  wf_outcome r = true ->
  (forall v, wf_val v = true -> r = Ok (Some v) -> wf_outcome (k (Some v)) = true) ->
  wf_outcome (r ≫= k) = true.
Proof.
  intros Hr Hk. destruct r as [[v|]|e]; simpl in *; try done.
  by apply Hk.
Qed.

Lemma wf_bind_get (v : val) (k : data -> result (option val)) :
  wf_val v = true ->
  (forall d, get v = Ok d -> plain d = true -> wf_outcome (k d) = true) ->
  wf_outcome (get v ≫= k) = true.
Proof.
  intros Hv Hk. pose proof (get_wf v Hv) as Hget.
  destruct (get v); simpl; [by apply Hk | done].
Qed.

(** Reading an own property of a plain object. *)
Lemma wf_hasOwnProperty (m : gmap string data) (name : string) :
  plain (DObj m) = true ->
  hasOwnProperty m name = Ok (m !! name)
  /\ forall x, m !! name = Some x -> plain x = true.
Proof.
  intros Hm. apply plain_DObj in Hm as [Hown Hall]. split.
  - unfold hasOwnProperty. by rewrite Hown.
  - intros x. apply Hall.
Qed.

Lemma key_literal_inv (n : node) :
  key_literal n = true ->
  exists d, n = Value d /\
    forall s, d = DStr s -> s ≠ "__proto__" /\ s ≠ "hasOwnProperty".
Proof.
  destruct n as [| | | | | | | | | |d| | | | | | | |]; try discriminate.
  intros Hk. exists d. split; [done|]. intros s ->. simpl in Hk.
  apply andb_prop in Hk as [H1 H2].
  apply negb_true_iff in H1, H2. by apply String.eqb_neq in H1, H2.
Qed.

Section WellFormed.

(** The registries keep outcomes well formed, and so do the properties of a
    stream object. *)
Hypothesis operators_wf :
  forall op f, operators !! op = Some f -> wf_operator f.
Hypothesis functions_wf :
  forall name f, functions !! name = Some f -> wf_function f.
Hypothesis fields_wf : wf_fields StreamValue_fields.

Ltac split_andb :=
  repeat match goal with
         | H : _ && _ = true |- _ => apply andb_prop in H as [? ?]
         end.

(** The splat on a well-formed current value. *)
Lemma Object_assign_wf (target : gmap string data) (v : val) :
  plain (DObj target) = true -> wf_val v = true ->
  exists result,
    Object_assign StreamValue_fields target (Some v) = Ok result
    /\ plain (DObj result) = true.
Proof.
  intros Ht Hv. unfold Object_assign. destruct v as [d|elems tail].
  - cbn [own_fields]. apply assign_plain; [done| |done].
    apply plain_DObj. split; [done|]. intros k x Hk.
    apply lookup_singleton_Some in Hk as [_ <-]. exact Hv.
  - destruct (fields_wf elems tail). by apply assign_plain.
Qed.

(** Evaluating a tame tree in a well-formed scope gives a well-formed Value
    or one of the evaluator's own exceptions. *)
Lemma execute_wf n : tame n = true -> wf_executor (execute n).
Proof.
  unfold wf_executor.
  induction n using node_induction; intros Hfree scope Hscope;
    cbn [tame] in Hfree; split_andb; try discriminate.
  - (* This *) simpl. by apply wf_scope_value.
  - (* Star *) by apply wf_createSink.
  - (* Parent *)
    simpl. destruct (parent scope) as [p|] eqn:Hp; [|done].
    simpl. apply wf_scope_value. by eapply wf_scope_parent.
  - (* OpCall *)
    simpl. destruct (operators !! outside_string op) as [f|] eqn:Hop.
    + apply (operators_wf _ _ Hop); unfold wf_executor; auto.
    + apply own_error_operator.
  - (* FuncCall *)
    simpl. destruct (functions !! outside_string name) as [f|] eqn:Hf.
    + apply (functions_wf _ _ Hf); [|done].
      apply Forall_map. rewrite forallb_forall in Hfree.
      rewrite Forall_forall in H. apply Forall_forall. intros a Ha scope'.
      apply H; [done|]. by apply Hfree, list_elem_of_In.
    + apply own_error_function.
  - (* Filter *)
    simpl. apply wf_bind; [auto|]. intros bv Hbv _. simpl.
    destruct (differs (getType bv) "array") eqn:Hty; [done|].
    apply wf_new_StreamValue, wf_for_await.
    { apply wf_iterate; [done|]. unfold differs in Hty.
      by apply negb_false_iff, String.eqb_eq in Hty. }
    intros v Hv. apply wf_gen_await.
    { apply IHn2; [done|]. by apply wf_createNested. }
    intros c Hc _. simpl. by destruct (getBoolean c); [apply wf_yield|].
  - (* Element *)
    simpl. apply wf_bind; [auto|]. intros bv Hbv _. simpl.
    destruct (differs (getType bv) "array"); [done|].
    apply wf_bind; [auto|]. intros iv Hiv _. simpl.
    destruct (differs (getType iv) "number"); [done|].
    apply wf_bind_get; [done|]. intros d _ Hd.
    apply wf_bind_get; [done|]. intros i _ _.
    destruct d as [| | | |A|], i; try done.
    match goal with |- context [if ?c then _ else _] => destruct c end; [|done].
    by apply plain_lookup_total.
  - (* Slice *)
    destruct (number_literal_inv n2) as [l ->]; [done|].
    destruct (number_literal_inv n3) as [r ->]; [done|].
    simpl. apply wf_bind; [auto|]. intros bv Hbv _. simpl.
    destruct (differs (getType bv) "array") eqn:Hty; [done|].
    unfold differs in Hty. apply negb_false_iff, String.eqb_eq in Hty.
    apply wf_bind_get; [done|]. intros d Hd Hplain.
    destruct (getType_array_get _ _ Hty Hd) as [A ->].
    by apply plain_slice.
  - (* Attribute *)
    simpl. apply wf_bind; [auto|]. intros bv Hbv _. simpl.
    destruct (String.eqb (getType bv) "object"); [|done].
    apply wf_bind_get; [done|]. intros d _ Hd. destruct d as [| | | | |m]; try done.
    destruct (wf_hasOwnProperty m name Hd) as [-> Hx]. simpl.
    destruct (m !! name) as [x|]; [|done]. by apply Hx.
  - (* Identifier *)
    simpl. pose proof (wf_scope_value _ Hscope) as Hv.
    destruct (value scope) as [v|]; [|done]. simpl.
    destruct (String.eqb (getType v) "object"); [|done].
    apply wf_bind_get; [done|]. intros d _ Hd. destruct d as [| | | | |m]; try done.
    destruct (wf_hasOwnProperty m name Hd) as [-> Hx]. simpl.
    destruct (m !! name) as [x|]; [|done]. by apply Hx.
  - (* Value *) done.
  - (* Projection *)
    simpl. apply wf_bind; [auto|]. intros bv Hbv _. simpl.
    destruct (String.eqb_spec (getType bv) "array") as [Hty|Hty].
    + apply wf_new_StreamValue, wf_for_await; [by apply wf_iterate|].
      intros v Hv. apply wf_gen_await.
      { apply IHn2; [done|]. by apply wf_createNested. }
      intros c Hc _. by apply wf_yield.
    + apply IHn2; [done|]. by apply wf_createNested.
  - (* Flatten *)
    simpl. apply wf_bind; [auto|]. intros bv Hbv _. simpl.
    destruct (differs (getType bv) "array") eqn:Hty; [done|].
    apply wf_new_StreamValue, wf_for_await.
    { apply wf_iterate; [done|]. unfold differs in Hty.
      by apply negb_false_iff, String.eqb_eq in Hty. }
    intros v Hv. simpl.
    destruct (String.eqb_spec (getType v) "array") as [Hvty|Hvty]; [|done].
    apply wf_for_await; [by apply wf_iterate|].
    intros x Hx. by apply wf_yield.
  - (* Deref *)
    simpl. apply wf_bind; [auto|]. intros bv Hbv _. simpl.
    destruct (differs (getType bv) "object") eqn:Hty; [done|].
    apply wf_bind_get; [done|]. intros d Hd _.
    unfold differs in Hty. apply negb_false_iff, String.eqb_eq in Hty.
    destruct (getType_object _ Hty) as [m ->]. injection Hd as <-. simpl.
    destruct (m !! "_ref") as [[]|]; try done.
    by apply wf_Deref_scan, wf_scope_documents.
  - (* Object *)
    simpl. pose proof plain_empty as Hacc. revert Hacc.
    generalize (∅ : gmap string data).
    induction H as [|[|k v|type] attrs Ha _ IHattrs]; intros result Hacc.
    + exact Hacc.
    + cbn [forallb] in Hfree. pose proof (wf_scope_value _ Hscope) as Hv.
      destruct (value scope) as [cur|]; [|done].
      destruct (Object_assign_wf result cur Hacc Hv) as (result' & -> & Hacc').
      by apply IHattrs.
    + cbn [forallb] in Hfree. split_andb. destruct Ha as [_ IHv].
      destruct (key_literal_inv k) as (kd & -> & Hkd); [done|].
      cbn [execute mbind result_bind ref_getType deref].
      destruct (differs (getType (StaticValue kd)) "string") eqn:Hkty;
        [by apply IHattrs|].
      apply wf_bind; [auto|]. intros val Hval _. simpl.
      destruct (String.eqb (getType val) "null"); [by apply IHattrs|].
      apply wf_bind_get; [done|]. intros d _ Hd.
      destruct kd as [| | |s| |]; try by apply IHattrs.
      destruct (Hkd s eq_refl) as [Hproto Hown].
      unfold set_property. rewrite (eqb_false _ _ Hproto). simpl.
      apply IHattrs; [done|]. by apply plain_insert.
    + apply own_error_attribute.
  - (* Array *)
    simpl. apply wf_new_StreamValue, wf_for_of.
    rewrite forallb_forall in Hfree. rewrite Forall_forall in H.
    apply Forall_forall. intros a Ha. apply wf_gen_await.
    { apply H; [done| |done]. by apply Hfree, list_elem_of_In. }
    intros v Hv _. by apply wf_yield.
  - (* And *)
    simpl. apply wf_bind; [auto|]. intros lv Hlv _. simpl.
    destruct (getBoolean lv); [|done]. simpl.
    apply wf_bind; [auto|]. intros rv Hrv _. simpl.
    by destruct (getBoolean rv).
  - (* Not *)
    simpl. apply wf_bind; [auto|]. intros v Hv _. simpl.
    by destruct (getBoolean v).
  - (* UnknownNode *) apply own_error_executor.
Qed.

End WellFormed.

(** ** Outcomes free of the bare null *)

Lemma null_free_iterate (v : val) :
  null_free v = true -> null_free_gen (iterate v) = true.
Proof.
  destruct v as [d|elems tail]; intros Hv; [|exact Hv].
  destruct d as [| | | |l|]; try done.
  unfold null_free_gen. cbn [iterate fst].
  apply forallb_forall. intros r Hr. by apply in_map_iff in Hr as (d & <- & _).
Qed.

Lemma null_free_gen_then (g k : gen) :
  null_free_gen g = true -> null_free_gen k = true ->
  null_free_gen (gen_then g k) = true.
Proof.
  unfold null_free_gen, gen_then. destruct g as [g1 [e|]]; simpl; intros Hg Hk;
    [done|]. by rewrite forallb_app, Hg, Hk.
Qed.

Lemma null_free_for_of {A} (body : A -> gen) (l : list A) :
  Forall (fun x => null_free_gen (body x) = true) l ->
  null_free_gen (for_of body l) = true.
Proof.
  induction 1 as [|x l Hx _ IH]; [done|]. simpl. by apply null_free_gen_then.
Qed.

Lemma null_free_for_await (s : gen) (body : option val -> gen) :
  null_free_gen s = true ->
  (forall v, null_free v = true -> null_free_gen (body (Some v)) = true) ->
  null_free_gen (for_await s body) = true.
Proof.
  intros Hs Hbody. unfold for_await. apply null_free_gen_then; [|done].
  apply null_free_for_of. apply Forall_forall. intros r Hr.
  unfold null_free_gen in Hs. rewrite forallb_forall in Hs.
  specialize (Hs r (proj1 (list_elem_of_In _ _) Hr)).
  destruct r as [v|]; [by apply Hbody|done].
Qed.

(** [await] inside a generator body: an exception ends the stream and
    yields nothing. *)
Lemma null_free_gen_await {A} (r : result A) (k : A -> gen) :
  (forall a, r = Ok a -> null_free_gen (k a) = true) ->
  null_free_gen (gen_await r k) = true.
Proof. intros Hk. destruct r; simpl; [by apply Hk|done]. Qed.

Lemma null_free_yield (v : val) :
  null_free v = true -> null_free_gen (yield (Some v)) = true.
Proof.
  intros Hv. unfold null_free_gen, yield. cbn [fst forallb null_free_ref].
  by rewrite Hv.
Qed.

Lemma null_free_createNested scope (v : val) :
  null_free_scope scope = true -> null_free v = true ->
  null_free_scope (createNested scope (Some v)) = true.
Proof.
  destruct scope as [ps src v0 p]. unfold createNested. cbn -[null_free].
  intros Hs Hv. by rewrite Hv, Hs.
Qed.

Lemma null_free_scope_value scope :
  null_free_scope scope = true -> null_free_ref (value scope) = true.
Proof. destruct scope. simpl. intros Hs. by apply andb_prop in Hs as [? _]. Qed.

Lemma null_free_scope_parent scope p :
  null_free_scope scope = true -> parent scope = Some p ->
  null_free_scope p = true.
Proof.
  destruct scope as [? ? ? q]. simpl. intros Hs ->.
  by apply andb_prop in Hs as [_ ?].
Qed.

Lemma null_free_Deref_scan id (docs : list (option val)) tail :
  forallb null_free_ref docs = true ->
  null_free_outcome (Deref_scan id docs tail) = true.
Proof.
  induction docs as [|[doc|] docs IH]; intros Hdocs.
  - by destruct tail.
  - cbn [forallb] in Hdocs. apply andb_prop in Hdocs as [Hdoc Hdocs].
    specialize (IH Hdocs). cbn [Deref_scan deref mbind result_bind].
    destruct (data_field doc) as [d|]; [|done].
    destruct (get_property d "_id") as [[[]|]|]; try done.
    cbn [mbind result_bind]. by destruct (String.eqb id s).
  - done.
Qed.

(** Sequencing: an exception is free of the bare [null]. *)
Lemma null_free_bind_any {A} (r : result A) (k : A -> result (option val)) :
  (forall a, r = Ok a -> null_free_outcome (k a) = true) ->
  null_free_outcome (r ≫= k) = true.
Proof. intros Hk. destruct r; simpl; [by apply Hk|done]. Qed.

Lemma null_free_bind (r : result (option val)) (k : option val -> result (option val)) :
  null_free_outcome r = true ->
  (forall v, null_free v = true -> r = Ok (Some v) ->
             null_free_outcome (k (Some v)) = true) ->
  null_free_outcome (r ≫= k) = true.
Proof.
  intros Hr Hk. destruct r as [[v|]|e]; simpl in *; try done.
  by apply Hk.
Qed.

Section NullFree.

(** The registries make no bare [null]. *)
Hypothesis operators_null_free :
  forall op f, operators !! op = Some f -> null_free_operator f.
Hypothesis functions_null_free :
  forall name f, functions !! name = Some f -> null_free_function f.

Ltac split_andb :=
  repeat match goal with
         | H : _ && _ = true |- _ => apply andb_prop in H as [? ?]
         end.

(** The outcome of an object construction is an exception or an eager
    object. *)
Lemma Object_loop_null_free (exec : node -> executor) scope attributes acc :
  null_free_outcome
    (Object_loop StreamValue_fields exec scope attributes acc) = true.
Proof.
  revert acc. induction attributes as [|[|k v|type] attrs IH]; intros acc;
    cbn [Object_loop]; try done.
  - apply null_free_bind_any. intros acc' _. apply IH.
  - apply null_free_bind_any. intros key _.
    apply null_free_bind_any. intros kty _.
    destruct (differs kty "string"); [apply IH|].
    apply null_free_bind_any. intros value _.
    apply null_free_bind_any. intros vty _.
    destruct (String.eqb vty "null"); [apply IH|].
    apply null_free_bind_any. intros d _.
    destruct (key ≫= data_field) as [[]|]; try apply IH.
    apply null_free_bind_any. intros acc' _. apply IH.
Qed.

(** Evaluating a tree whose [Slice] bounds are number literals, in a scope
    free of the bare [null], gives an exception or a Value free of it. *)
Lemma execute_null_free n :
  literal_bounds n = true -> null_free_executor (execute n).
Proof.
  unfold null_free_executor.
  induction n using node_induction; intros Hfree scope Hscope;
    cbn [literal_bounds] in Hfree; split_andb; try discriminate.
  - (* This *) simpl. by apply null_free_scope_value.
  - (* Star *) done.
  - (* Parent *)
    simpl. destruct (parent scope) as [p|] eqn:Hp; [|done].
    simpl. apply null_free_scope_value. by eapply null_free_scope_parent.
  - (* OpCall *)
    simpl. destruct (operators !! outside_string op) as [f|] eqn:Hop; [|done].
    apply (operators_null_free _ _ Hop); unfold null_free_executor; auto.
  - (* FuncCall *)
    simpl. destruct (functions !! outside_string name) as [f|] eqn:Hf; [|done].
    apply (functions_null_free _ _ Hf); [|done].
    apply Forall_map. rewrite forallb_forall in Hfree.
    rewrite Forall_forall in H. apply Forall_forall. intros a Ha scope'.
    apply H; [done|]. by apply Hfree, list_elem_of_In.
  - (* Filter *)
    simpl. apply null_free_bind; [auto|]. intros bv Hbv _. simpl.
    destruct (differs (getType bv) "array"); [done|].
    cbn [null_free_outcome null_free_ref].
    apply (null_free_for_await (iterate bv)); [by apply null_free_iterate|].
    intros v Hv. apply null_free_gen_await. intros c _.
    apply null_free_gen_await. intros b _.
    by destruct b; [apply null_free_yield|].
  - (* Element *)
    simpl. apply null_free_bind_any. intros [bv|] _; [|done]. simpl.
    destruct (differs (getType bv) "array"); [done|].
    apply null_free_bind_any. intros [iv|] _; [|done]. simpl.
    destruct (differs (getType iv) "number"); [done|].
    apply null_free_bind_any. intros d _.
    apply null_free_bind_any. intros i _.
    destruct d, i; try done.
    by match goal with |- context [if ?c then _ else _] => destruct c end.
  - (* Slice *)
    destruct (number_literal_inv n2) as [l ->]; [done|].
    destruct (number_literal_inv n3) as [r ->]; [done|].
    simpl. apply null_free_bind_any. intros [bv|] _; [|done]. simpl.
    destruct (differs (getType bv) "array") eqn:Hty; [done|].
    unfold differs in Hty. apply negb_false_iff, String.eqb_eq in Hty.
    apply null_free_bind_any. intros d Hd.
    by destruct (getType_array_get _ _ Hty Hd) as [A ->].
  - (* Attribute *)
    simpl. apply null_free_bind_any. intros [bv|] _; [|done]. simpl.
    destruct (String.eqb (getType bv) "object"); [|done].
    apply null_free_bind_any. intros d _. destruct d as [| | | | |m]; try done.
    apply null_free_bind_any. by intros [x|] _.
  - (* Identifier *)
    simpl. apply null_free_bind_any. intros ty _.
    destruct (String.eqb ty "object"); [|done].
    apply null_free_bind_any. intros d _. destruct d as [| | | | |m]; try done.
    apply null_free_bind_any. by intros [x|] _.
  - (* Value *) done.
  - (* Projection *)
    simpl. apply null_free_bind; [auto|]. intros bv Hbv _. simpl.
    destruct (String.eqb (getType bv) "array").
    + cbn [null_free_outcome null_free_ref].
      apply (null_free_for_await (iterate bv)); [by apply null_free_iterate|].
      intros v Hv. apply null_free_gen_await. intros [c|] Hc.
      * apply null_free_yield.
        assert (Hq : null_free_outcome (execute n2 (createNested scope (Some v))) = true).
        { apply IHn2; [done|]. by apply null_free_createNested. }
        by rewrite Hc in Hq.
      * assert (Hq : null_free_outcome (execute n2 (createNested scope (Some v))) = true).
        { apply IHn2; [done|]. by apply null_free_createNested. }
        by rewrite Hc in Hq.
    + apply IHn2; [done|]. by apply null_free_createNested.
  - (* Flatten *)
    simpl. apply null_free_bind; [auto|]. intros bv Hbv _. simpl.
    destruct (differs (getType bv) "array"); [done|].
    cbn [null_free_outcome null_free_ref].
    apply (null_free_for_await (iterate bv)); [by apply null_free_iterate|].
    intros v Hv. simpl.
    destruct (String.eqb (getType v) "array"); [|done].
    apply null_free_for_await; [by apply null_free_iterate|].
    intros x Hx. by apply null_free_yield.
  - (* Deref *)
    simpl. apply null_free_bind_any. intros [bv|] _; [|done]. simpl.
    destruct (differs (getType bv) "object"); [done|].
    apply null_free_bind_any. intros d _.
    apply null_free_bind_any. intros [[| | |id| |]|] _; try done.
    apply null_free_Deref_scan. cbn [createSink iterate fst].
    apply forallb_forall. intros r Hr. by apply in_map_iff in Hr as (x & <- & _).
  - (* Object *)
    rewrite execute_Object. apply Object_loop_null_free.
  - (* Array *)
    simpl. apply null_free_for_of.
    rewrite forallb_forall in Hfree. rewrite Forall_forall in H.
    apply Forall_forall. intros a Ha. apply null_free_gen_await. intros r Hr.
    assert (Ha' : null_free_outcome (execute a scope) = true).
    { apply H; [done| |done]. by apply Hfree, list_elem_of_In. }
    rewrite Hr in Ha'. destruct r as [v|]; [by apply null_free_yield|done].
  - (* And *)
    simpl. apply null_free_bind_any. intros [lv|] _; [|done]. simpl.
    destruct (getBoolean lv); [|done]. simpl.
    apply null_free_bind_any. intros [rv|] _; [|done]. simpl.
    by destruct (getBoolean rv).
  - (* Not *)
    simpl. apply null_free_bind_any. intros [v|] _; [|done]. simpl.
    by destruct (getBoolean v).
  - (* UnknownNode *) done.
Qed.

End NullFree.

Lemma Element_out_of_range base index scope bv A i :
  execute base scope = Ok (Some bv) -> get bv = Ok (DArr A) ->
  execute index scope = Ok (Some (StaticValue (DNum i))) ->
  (let len := Z.of_nat (length A) in
   let j := if decide (i < 0) then len + i else i in
   ¬ (0 <= j < len)) ->
  execute (Element base index) scope = Ok (Some NULL_VALUE).
Proof.
  intros Hb Hget Hi Hj. rewrite (Element_array _ _ _ _ _ _ Hb Hget Hi).
  cbv zeta in *.
  destruct (Z.ltb_spec i 0), (decide (i < 0)); try lia;
    match goal with
    | |- context [Z.leb 0 ?j && Z.ltb ?j ?len] =>
        destruct (Z.leb_spec 0 j), (Z.ltb_spec j len); try lia; done
    end.
Qed.

Lemma Deref_no_match base scope m id :
  execute base scope = Ok (Some (StaticValue (DObj m))) ->
  m !! "_ref" = Some (DStr id) ->
  Forall (fun x => x ≠ DNull /\ has_id id x = false) (documents (source scope)) ->
  execute (Deref base) scope = Ok (Some NULL_VALUE).
Proof.
  intros Hb Hm Hdocs. rewrite (Deref_object _ _ _ _ Hb Hm).
  by apply Deref_scan_none.
Qed.

(** ** Fatal conditions *)


(** ** The bare null of Slice *)

(** C4.  A [Slice] node over an array whose left or right bound evaluates to
    a Value that is not a number returns the bare [null], which is not the
    null Value; over a base that is not an array it returns the null Value.
    This is the one place where the bare [null] comes from: with registries
    that make none, a tree whose [Slice] bounds are number literals,
    evaluated in a scope whose current values are free of it, never returns
    it, and no stream of the Value it returns yields it. *)
Theorem Slice_bare_null :
  (forall base left_ right_ isExclusive scope bv lv rv,
     execute base scope = Ok (Some bv) -> getType bv = "array" ->
     execute left_ scope = Ok (Some lv) -> execute right_ scope = Ok (Some rv) ->
     getType lv ≠ "number" \/ getType rv ≠ "number" ->
     execute (Slice base left_ right_ isExclusive) scope = Ok None)
  /\ (None : option val) ≠ Some NULL_VALUE
  /\ (forall base left_ right_ isExclusive scope bv,
        execute base scope = Ok (Some bv) -> getType bv ≠ "array" ->
        execute (Slice base left_ right_ isExclusive) scope = Ok (Some NULL_VALUE))
  /\ ((forall op f, operators !! op = Some f -> null_free_operator f) ->
      (forall name f, functions !! name = Some f -> null_free_function f) ->
      forall n scope,
        literal_bounds n = true -> null_free_scope scope = true ->
        execute n scope ≠ Ok None
        /\ forall v, execute n scope = Ok (Some v) -> null_free v = true).
Proof.
  split; [|split; [done|split]].
  - intros. by eapply Slice_bound_mismatch.
  - intros. by eapply Slice_non_array.
  - intros Hops Hfuns n scope Hfree Hscope.
    pose proof (execute_null_free Hops Hfuns n Hfree scope Hscope) as Hwf.
    split.
    + intros Hnull. by rewrite Hnull in Hwf.
    + intros v Hv. by rewrite Hv in Hwf.
Qed.

(** * Further properties of the executors *)

(** ** Object construction *)

(** X1.  An attribute with a string key other than [__proto__] and a value
    other than null, put last in an object construction, is stored under
    its key over what the attributes before it built: it overwrites an
    earlier attribute of the same name and leaves the other keys as they
    were.  When the key is not [hasOwnProperty] either, reading another key
    from the constructed object gives what it gave before, and, the object
    having no own property [hasOwnProperty], reading the key back gives the
    materialised value. *)
Theorem Object_last_attribute_wins attributes k v scope m name vv d :
  execute (Object attributes) scope = Ok (Some (StaticValue (DObj m))) ->
  execute k scope = Ok (Some (StaticValue (DStr name))) ->
  name ≠ "__proto__" ->
  execute v scope = Ok (Some vv) -> getType vv ≠ "null" -> get vv = Ok d ->
  execute (Object (attributes ++ [ObjectAttribute k v])) scope
    = Ok (Some (StaticValue (DObj (<[name := d]> m))))
  /\ (name ≠ "hasOwnProperty" -> m !! "hasOwnProperty" = None ->
      execute (Attribute (Object (attributes ++ [ObjectAttribute k v])) name) scope
      = Ok (Some (StaticValue d)))
  /\ (name ≠ "hasOwnProperty" ->
      forall other, other ≠ name ->
        execute (Attribute (Object (attributes ++ [ObjectAttribute k v])) other) scope
        = execute (Attribute (Object attributes) other) scope).
Proof.
  intros Hattrs Hk Hproto Hv Hnull Hget.
  assert (H : execute (Object (attributes ++ [ObjectAttribute k v])) scope
              = Ok (Some (StaticValue (DObj (<[name := d]> m))))).
  { rewrite execute_Object, Object_loop_app. rewrite execute_Object in Hattrs.
    rewrite Hattrs. simpl. rewrite Hk. simpl. rewrite Hv. simpl.
    rewrite (eqb_false _ _ Hnull), Hget. simpl.
    unfold set_property. by rewrite (eqb_false _ _ Hproto). }
  split; [exact H|]. split.
  - intros Hname Hown.
    rewrite (Attribute_object _ name _ _ H).
    + by rewrite lookup_insert_eq.
    + by rewrite lookup_insert_ne.
  - intros Hname other Hother.
    rewrite (Attribute_eq (Object (attributes ++ [ObjectAttribute k v])) other).
    rewrite (Attribute_eq (Object attributes) other).
    rewrite H, Hattrs. simpl. unfold hasOwnProperty.
    rewrite !lookup_insert_ne by done. done.
Qed.

(** X2.  An attribute whose key is not a string is skipped without its
    value expression being evaluated (so also when that expression would
    abort), and an attribute whose value is the null Value is skipped: the
    object is the one the attributes before it built. *)
Theorem Object_attribute_skipped attributes k scope r kv :
  execute (Object attributes) scope = Ok r ->
  execute k scope = Ok (Some kv) ->
  (getType kv ≠ "string" ->
     forall v, execute (Object (attributes ++ [ObjectAttribute k v])) scope = Ok r)
  /\ (forall v vv,
        execute v scope = Ok (Some vv) -> getType vv = "null" ->
        execute (Object (attributes ++ [ObjectAttribute k v])) scope = Ok r).
Proof.
  intros Hattrs Hk. rewrite execute_Object in Hattrs.
  destruct (Object_loop_object _ _ _ _ Hattrs) as [m ->].
  split.
  - intros Hty v. rewrite execute_Object, Object_loop_app, Hattrs. simpl.
    rewrite Hk. simpl. by rewrite (differs_true _ _ Hty).
  - intros v vv Hv Hnull. rewrite execute_Object, Object_loop_app, Hattrs. simpl.
    rewrite Hk. simpl. destruct (differs (getType kv) "string"); [done|].
    rewrite Hv. simpl. by rewrite Hnull.
Qed.

(** ** Boolean nodes *)

(** X3.  [And] is short-circuit: when the left operand does not coerce to
    true the result is the false Value whatever the right operand is, which
    is not evaluated (it may be a node that aborts); otherwise the result is
    the true Value when the right operand coerces to true and the false
    Value when it does not. *)
Theorem And_short_circuit left_ scope lv :
  execute left_ scope = Ok (Some lv) ->
  (getBoolean lv = false ->
     forall right_, execute (And left_ right_) scope = Ok (Some FALSE_VALUE))
  /\ (getBoolean lv = true ->
      forall right_ rv,
        execute right_ scope = Ok (Some rv) ->
        execute (And left_ right_) scope
        = Ok (Some (if getBoolean rv then TRUE_VALUE else FALSE_VALUE))).
Proof.
  intros Hl. split.
  - intros Hb right_. simpl. rewrite Hl. simpl. by rewrite Hb.
  - intros Hb right_ rv Hr. simpl. rewrite Hl. simpl. rewrite Hb. simpl.
    rewrite Hr. simpl. by destruct (getBoolean rv).
Qed.

(** X4.  Negating twice is the boolean coercion: on an operand that
    evaluates to a Value, [Not (Not base)] is the true Value exactly when
    the operand is the literal [true]; and in every case, exceptions
    included, negating three times is negating once. *)
Theorem Not_Not base scope :
  (forall v, execute base scope = Ok (Some v) ->
     execute (Not (Not base)) scope
     = Ok (Some (if getBoolean v then TRUE_VALUE else FALSE_VALUE))
     /\ (getBoolean v = true <-> v = TRUE_VALUE))
  /\ execute (Not (Not (Not base))) scope = execute (Not base) scope.
Proof.
  split.
  - intros v Hv. split.
    + simpl. rewrite Hv. simpl. by destruct (getBoolean v).
    + split; [|by intros ->]. destruct v as [[| [] | | | |]|]; try done.
  - simpl. destruct (execute base scope) as [[v|]|]; simpl; try done.
    by destruct (getBoolean v).
Qed.

(** ** Attribute access *)

(** X5.  A bare identifier is an attribute of the current value:
    [Identifier name] and [Attribute This name] have the same outcome in
    every scope. *)
Theorem Identifier_is_Attribute_of_This name scope :
  execute (Identifier name) scope = execute (Attribute This name) scope.
Proof. reflexivity. Qed.

(** ** Streams built by the executors *)

Lemma gen_then_return_l (k : gen) : gen_then gen_return k = k.
Proof. by destruct k. Qed.

Lemma gen_then_assoc (a b c : gen) :
  gen_then (gen_then a b) c = gen_then a (gen_then b c).
Proof.
  destruct a as [a1 [e|]], b as [b1 [e'|]], c as [c1 c2];
    unfold gen_then; simpl; try done.
  by rewrite app_assoc.
Qed.

Lemma for_await_cons x (l : list (option val)) tail (body : option val -> gen) :
  for_await (x :: l, tail) body = gen_then (body x) (for_await (l, tail) body).
Proof. unfold for_await. simpl. apply gen_then_assoc. Qed.

Lemma for_await_yield_then x (g : gen) (body : option val -> gen) :
  for_await (gen_then (yield x) g) body = gen_then (body x) (for_await g body).
Proof. destruct g as [l tail]. apply for_await_cons. Qed.

Lemma for_await_throw e (body : option val -> gen) :
  for_await (gen_throw e) body = gen_throw e.
Proof. done. Qed.

Lemma gen_then_throw e (k : gen) : gen_then (gen_throw e) k = gen_throw e.
Proof. done. Qed.

(** The array base of a streaming executor. *)
Lemma Projection_array base query scope bv :
  execute base scope = Ok (Some bv) -> getType bv = "array" ->
  execute (Projection base query) scope =
    Ok (Some (new_StreamValue (for_await (iterate bv) (fun value =>
      gen_await (execute query (createNested scope value)) (fun newValue =>
      yield newValue))))).
Proof. intros Hb Hty. simpl. rewrite Hb. simpl. by rewrite Hty. Qed.

Lemma Projection_non_array base query scope bv :
  execute base scope = Ok (Some bv) -> getType bv ≠ "array" ->
  execute (Projection base query) scope
  = execute query (createNested scope (Some bv)).
Proof. intros Hb Hty. simpl. rewrite Hb. simpl. by rewrite (eqb_false _ _ Hty). Qed.

(** ** Filter, once more *)

(** The loop of two filters in a row is the loop of one filter on the
    conjunction. *)
Lemma Filter_loops_fuse p q scope (elems : list (option val)) tail :
  for_await
    (for_await (elems, tail) (fun value =>
       gen_await (execute p (createNested scope value)) (fun condValue =>
       gen_await (ref_getBoolean condValue) (fun cond : bool =>
       if cond then yield value else gen_return))))
    (fun value =>
       gen_await (execute q (createNested scope value)) (fun condValue =>
       gen_await (ref_getBoolean condValue) (fun cond : bool =>
       if cond then yield value else gen_return)))
  = for_await (elems, tail) (fun value =>
       gen_await (execute (And p q) (createNested scope value)) (fun condValue =>
       gen_await (ref_getBoolean condValue) (fun cond : bool =>
       if cond then yield value else gen_return))).
Proof.
  induction elems as [|x elems IH]; [done|].
  rewrite !for_await_cons. cbn [execute].
  destruct (execute p (createNested scope x)) as [[c|]|e]; simpl; try done.
  destruct (getBoolean c); simpl.
  - change ([x], @None error) with (yield x).
    rewrite for_await_yield_then, IH. f_equal.
    destruct (execute q (createNested scope x)) as [[c'|]|e']; simpl; try done.
    by destruct (getBoolean c').
  - change ([] : list (option val), @None error) with gen_return.
    by rewrite !gen_then_return_l.
Qed.

(** X6.  Two filters in a row are one filter on the conjunction of their
    predicates: [Filter (Filter base p) q] and [Filter base (And p q)] have
    the same outcome in every scope, exceptions and the order of the
    elements included. *)
Theorem Filter_Filter_And base p q scope :
  execute (Filter (Filter base p) q) scope = execute (Filter base (And p q)) scope.
Proof.
  destruct (execute base scope) as [[bv|]|e] eqn:Hb.
  - destruct (decide (getType bv = "array")) as [Hty|Hty].
    + rewrite (Filter_array _ _ _ _ Hb Hty).
      rewrite (Filter_array (Filter base p) q scope _
                 (Filter_array _ _ _ _ Hb Hty) eq_refl).
      do 3 f_equal. destruct (iterate bv) as [elems tail].
      cbn [iterate new_StreamValue]. rewrite <- surjective_pairing.
      apply Filter_loops_fuse.
    + rewrite (Filter_non_array _ _ _ _ Hb Hty).
      apply (Filter_non_array (Filter base p) q scope NULL_VALUE); [|done].
      by apply Filter_non_array with bv.
  - simpl. rewrite Hb. done.
  - simpl. rewrite Hb. done.
Qed.

(** X7.  A filter on a literal predicate: on the literal [true] the stream
    of the result is the stream of the base, elements and ending alike; on
    any other literal it yields nothing (and ends as the base does). *)
Theorem Filter_literal base scope bv d :
  execute base scope = Ok (Some bv) -> getType bv = "array" ->
  execute (Filter base (Value d)) scope
  = Ok (Some (StreamValue
                (if getBoolean (StaticValue d) then (iterate bv).1 else [])
                (iterate bv).2)).
Proof.
  intros Hb Hty. rewrite (Filter_array _ _ _ _ Hb Hty).
  destruct (iterate bv) as [elems tail]. cbn [execute fst snd]. do 2 f_equal.
  unfold new_StreamValue.
  assert (H : for_await (elems, tail) (fun value =>
                gen_await (Ok (Some (StaticValue d))) (fun condValue =>
                gen_await (ref_getBoolean condValue) (fun cond : bool =>
                if cond then yield value else gen_return)))
              = (if getBoolean (StaticValue d) then elems else [], tail)).
  { induction elems as [|x elems IH]; [by destruct (getBoolean _)|].
    rewrite for_await_cons, IH. cbn [gen_await ref_getBoolean deref].
    by destruct (getBoolean (StaticValue d)). }
  by rewrite H.
Qed.

(** ** Projection *)

Lemma Projection_loop query scope (f : option val -> option val) elems tail :
  Forall (fun x => execute query (createNested scope x) = Ok (f x)) elems ->
  for_await (elems, tail) (fun value =>
    gen_await (execute query (createNested scope value)) (fun newValue =>
    yield newValue))
  = (map f elems, tail).
Proof.
  induction 1 as [|x elems Hx _ IH]; [done|].
  rewrite for_await_cons, IH, Hx. done.
Qed.

(** X8.  A projection over an array maps the query over the elements: when
    the query evaluates on every element (in a nested scope with the element
    as current value), the result is the stream of the outcomes, one per
    element and in the order of the base, which ends as the base does.  No
    element is dropped or added. *)
Theorem Projection_maps base query scope bv (f : option val -> option val) :
  execute base scope = Ok (Some bv) -> getType bv = "array" ->
  Forall (fun x => execute query (createNested scope x) = Ok (f x)) (iterate bv).1 ->
  execute (Projection base query) scope
    = Ok (Some (StreamValue (map f (iterate bv).1) (iterate bv).2))
  /\ length (map f (iterate bv).1) = length (iterate bv).1.
Proof.
  intros Hb Hty Hq. split; [|apply length_map].
  rewrite (Projection_array _ _ _ _ Hb Hty).
  destruct (iterate bv) as [elems tail]. by rewrite (Projection_loop _ _ f).
Qed.

(** X9.  Inside a projection [This] is the element and [Parent] is the
    current value of the enclosing scope.  Projecting [This] gives the base
    back (the same stream for an array, the same Value otherwise);
    projecting [Parent] gives the current value of the scope the projection
    is evaluated in, once per element for an array. *)
Theorem Projection_This_Parent base scope bv :
  execute base scope = Ok (Some bv) ->
  (getType bv ≠ "array" ->
     execute (Projection base This) scope = Ok (Some bv)
     /\ execute (Projection base Parent) scope = Ok (value scope))
  /\ (getType bv = "array" ->
      execute (Projection base This) scope
        = Ok (Some (StreamValue (iterate bv).1 (iterate bv).2))
      /\ execute (Projection base Parent) scope
        = Ok (Some (StreamValue (map (fun _ => value scope) (iterate bv).1)
                      (iterate bv).2))).
Proof.
  intros Hb. split.
  - intros Hty. by rewrite !(Projection_non_array _ _ _ _ Hb Hty).
  - intros Hty. split.
    + destruct (Projection_maps base This scope bv id Hb Hty) as [-> _].
      * by apply Forall_forall.
      * by rewrite map_id.
    + destruct (Projection_maps base Parent scope bv (fun _ => value scope) Hb Hty)
        as [-> _]; [|done].
      by apply Forall_forall.
Qed.

(** X10.  Over an empty array the query of a filter or of a projection is
    never evaluated: whatever the query is, a node that aborts included, the
    result is the empty stream. *)
Theorem empty_array_query_not_evaluated base scope bv :
  execute base scope = Ok (Some bv) -> getType bv = "array" ->
  iterate bv = ([], None) ->
  forall query,
    execute (Filter base query) scope = Ok (Some (StreamValue [] None))
    /\ execute (Projection base query) scope = Ok (Some (StreamValue [] None)).
Proof.
  intros Hb Hty Hit query. split.
  - rewrite (Filter_array _ _ _ _ Hb Hty), Hit. done.
  - rewrite (Projection_array _ _ _ _ Hb Hty), Hit. done.
Qed.

(** ** Flatten, once more *)

Lemma Flatten_singletons_loop (elems : list (option val)) tail :
  for_await (map (fun x => Some (StreamValue [x] None)) elems, tail)
    (fun value =>
       gen_await (ref_getType value) (fun vty =>
       if String.eqb vty "array" then
         for_await (ref_iterate value) (fun element => yield element)
       else yield (Some NULL_VALUE)))
  = (elems, tail).
Proof.
  induction elems as [|x elems IH]; [done|].
  cbn [map]. rewrite for_await_cons, IH. done.
Qed.

(** X11.  Wrapping every element of an array in a one-element array and
    flattening gives the stream of the array back: [Flatten] undoes exactly
    one level of nesting. *)
Theorem Flatten_Projection_singleton base scope bv :
  execute base scope = Ok (Some bv) -> getType bv = "array" ->
  execute (Flatten (Projection base (Array [This]))) scope
  = Ok (Some (StreamValue (iterate bv).1 (iterate bv).2)).
Proof.
  intros Hb Hty.
  destruct (Projection_maps base (Array [This]) scope bv
              (fun x => Some (StreamValue [x] None)) Hb Hty) as [Hp _].
  { by apply Forall_forall. }
  rewrite (Flatten_array _ _ _ Hp eq_refl).
  cbn [iterate]. by rewrite Flatten_singletons_loop.
Qed.

(** ** Array construction *)

Lemma for_of_app {A} (body : A -> gen) (l1 l2 : list A) :
  for_of body (l1 ++ l2) = gen_then (for_of body l1) (for_of body l2).
Proof.
  induction l1 as [|x l1 IH]; simpl.
  - by rewrite gen_then_return_l.
  - by rewrite IH, gen_then_assoc.
Qed.

Lemma Array_loop_values scope elements vs :
  Forall2 (fun e v => execute e scope = Ok (Some v)) elements vs ->
  for_of (fun element => gen_await (execute element scope) yield) elements
  = (map Some vs, None).
Proof.
  induction 1 as [|e v elements vs He _ IH]; [done|].
  simpl. by rewrite He, IH.
Qed.

Lemma drain_values tail vs ds rest :
  Forall2 (fun v d => get v = Ok d) vs ds ->
  drain tail (map Some vs ++ rest)%list
  = ds' ← drain tail rest; Ok (ds ++ ds')%list.
Proof.
  induction 1 as [|v d vs ds Hv _ IH]; simpl.
  - by destruct (drain tail rest).
  - rewrite Hv, IH. simpl. by destruct (drain tail rest).
Qed.

Lemma Forall2_values scope elements ds :
  Forall2 (fun e d => exists v, execute e scope = Ok (Some v) /\ get v = Ok d)
    elements ds ->
  exists vs,
    Forall2 (fun e v => execute e scope = Ok (Some v)) elements vs
    /\ Forall2 (fun v d => get v = Ok d) vs ds.
Proof.
  induction 1 as [|e d elements ds (v & He & Hv) _ (vs & H1 & H2)].
  - exists []. by split.
  - exists (v :: vs). split; by constructor.
Qed.

(** X12.  An array construction materialises to the data of its elements,
    each evaluated in the scope of the construction, in the order in which
    they are listed and one per element. *)
Theorem Array_materialises elements scope ds :
  Forall2 (fun e d => exists v, execute e scope = Ok (Some v) /\ get v = Ok d)
    elements ds ->
  execute (Array elements) scope ≫= ref_get = Ok (DArr ds)
  /\ length ds = length elements.
Proof.
  intros H. split; [|symmetry; by eapply Forall2_length].
  destruct (Forall2_values _ _ _ H) as (vs & Hvs & Hds).
  cbn [execute]. rewrite (Array_loop_values _ _ _ Hvs).
  change (get (StreamValue (map Some vs) None) = Ok (DArr ds)).
  rewrite get_StreamValue.
  rewrite <- (app_nil_r (map Some vs)), (drain_values None _ _ [] Hds).
  simpl. by rewrite app_nil_r.
Qed.

(** X13.  An array construction is lazy: it returns a stream even when an
    element aborts, and the exception comes out when the stream is
    materialised, after the elements before it; the elements after it are
    not evaluated. *)
Theorem Array_exception_on_materialisation pre e post scope ds err :
  Forall2 (fun e d => exists v, execute e scope = Ok (Some v) /\ get v = Ok d)
    pre ds ->
  execute e scope = Throw err ->
  exists elems,
    execute (Array (pre ++ e :: post)%list) scope
      = Ok (Some (StreamValue elems (Some err)))
    /\ length elems = length pre
    /\ get (StreamValue elems (Some err)) = Throw err.
Proof.
  intros H He. destruct (Forall2_values _ _ _ H) as (vs & Hvs & Hds).
  exists (map Some vs). cbn [execute]. rewrite for_of_app.
  rewrite (Array_loop_values _ _ _ Hvs). cbn [for_of]. rewrite He.
  split; [|split].
  - unfold gen_then, new_StreamValue. simpl. by rewrite app_nil_r.
  - rewrite length_map. symmetry. by eapply Forall2_length.
  - rewrite get_StreamValue.
    rewrite <- (app_nil_r (map Some vs)), (drain_values _ _ _ [] Hds). done.
Qed.

(** X14.  Indexing into an array construction gives the materialised value
    of the element at that position. *)
Theorem Element_of_Array elements index scope ds i d :
  Forall2 (fun e d => exists v, execute e scope = Ok (Some v) /\ get v = Ok d)
    elements ds ->
  execute index scope = Ok (Some (StaticValue (DNum i))) ->
  0 <= i -> ds !! Z.to_nat i = Some d ->
  execute (Element (Array elements) index) scope = Ok (Some (StaticValue d)).
Proof.
  intros H Hi Hpos Hd.
  destruct (Forall2_values _ _ _ H) as (vs & Hvs & Hds).
  assert (Hb : execute (Array elements) scope
               = Ok (Some (StreamValue (map Some vs) None))).
  { cbn [execute]. by rewrite (Array_loop_values _ _ _ Hvs). }
  assert (Hget : get (StreamValue (map Some vs) None) = Ok (DArr ds)).
  { rewrite get_StreamValue.
    rewrite <- (app_nil_r (map Some vs)), (drain_values None _ _ [] Hds).
    simpl. by rewrite app_nil_r. }
  rewrite (Element_array _ _ _ _ _ _ Hb Hget Hi). cbv zeta.
  pose proof (lookup_lt_Some _ _ _ Hd) as Hlt.
  destruct (Z.ltb_spec i 0); [lia|].
  destruct (Z.leb_spec 0 i); [|lia].
  destruct (Z.ltb_spec i (Z.of_nat (length ds))); [|lia].
  simpl. by rewrite (list_lookup_total_correct _ _ _ Hd).
Qed.

(** ** Slice, once more *)

(** X15.  A slice from [0] to the length, exclusive, and a slice from [0]
    to [-1], inclusive, are the whole array. *)
Theorem Slice_whole base left_ right_ scope bv A :
  execute base scope = Ok (Some bv) -> get bv = Ok (DArr A) ->
  execute left_ scope = Ok (Some (StaticValue (DNum 0))) ->
  (execute right_ scope = Ok (Some (StaticValue (DNum (Z.of_nat (length A))))) ->
     execute (Slice base left_ right_ true) scope = Ok (Some (StaticValue (DArr A))))
  /\ (execute right_ scope = Ok (Some (StaticValue (DNum (-1)))) ->
        execute (Slice base left_ right_ false) scope
        = Ok (Some (StaticValue (DArr A)))).
Proof.
  intros Hb Hget Hl. split; intros Hr;
    rewrite (Slice_array _ _ _ _ _ _ _ _ _ Hb Hget Hl Hr); cbv zeta; simpl.
  - destruct (Z.ltb_spec (Z.of_nat (length A)) 0); [lia|].
    destruct (Z.ltb_spec (Z.of_nat (length A)) 0); [lia|].
    rewrite slice_take_drop by lia. change (Z.to_nat 0) with 0%nat.
    rewrite drop_0, Nat.sub_0_r, Nat2Z.id. by rewrite take_ge.
  - replace (Z.of_nat (length A) + -1 + 1) with (Z.of_nat (length A)) by lia.
    destruct (Z.ltb_spec (Z.of_nat (length A)) 0); [lia|].
    rewrite slice_take_drop by lia. change (Z.to_nat 0) with 0%nat.
    rewrite drop_0, Nat.sub_0_r, Nat2Z.id. by rewrite take_ge.
Qed.

(** X16.  Whatever its numeric bounds are, negative or past the end, a
    slice is a run of consecutive elements of the array: some elements
    dropped at the front, then some taken.  It is never longer than the
    array and never reorders or repeats an element. *)
Theorem Slice_is_a_segment base left_ right_ isExclusive scope bv A l r :
  execute base scope = Ok (Some bv) -> get bv = Ok (DArr A) ->
  execute left_ scope = Ok (Some (StaticValue (DNum l))) ->
  execute right_ scope = Ok (Some (StaticValue (DNum r))) ->
  exists (n m : nat),
    execute (Slice base left_ right_ isExclusive) scope
      = Ok (Some (StaticValue (DArr (take n (drop m A)))))
    /\ take n (drop m A) `sublist_of` A
    /\ (length (take n (drop m A)) <= length A)%nat.
Proof.
  intros Hb Hget Hl Hr.
  rewrite (Slice_array _ _ _ _ _ _ _ _ _ Hb Hget Hl Hr). cbv zeta.
  eexists _, _. split; [reflexivity|].
  assert (Hsub : forall n m, take n (drop m A) `sublist_of` A).
  { intros n m. etransitivity; [apply sublist_take | apply sublist_drop]. }
  split; [apply Hsub | apply sublist_length, Hsub].
Qed.

(** X17.  Indexing into a slice is indexing into the array at the shifted
    position: for bounds and an index that are not negative, element [k] of
    the slice from [l] is element [l + k] of the array when [l + k] is below
    the (exclusive) right bound, and the null Value otherwise. *)
Theorem Element_of_Slice base left_ right_ (isExclusive : bool) index scope bv A l r k :
  execute base scope = Ok (Some bv) -> get bv = Ok (DArr A) ->
  execute left_ scope = Ok (Some (StaticValue (DNum l))) ->
  execute right_ scope = Ok (Some (StaticValue (DNum r))) ->
  execute index scope = Ok (Some (StaticValue (DNum k))) ->
  0 <= l -> 0 <= r -> 0 <= k ->
  let hi := if isExclusive then r else r + 1 in
  (l + k < hi ->
     execute (Element (Slice base left_ right_ isExclusive) index) scope
     = execute (Element base (Value (DNum (l + k)))) scope)
  /\ (hi <= l + k ->
        execute (Element (Slice base left_ right_ isExclusive) index) scope
        = Ok (Some NULL_VALUE)).
Proof.
  intros Hb Hget Hl Hr Hi Hl0 Hr0 Hk0 hi.
  assert (HS : execute (Slice base left_ right_ isExclusive) scope
               = Ok (Some (StaticValue
                   (DArr (take (Z.to_nat hi - Z.to_nat l) (drop (Z.to_nat l) A)))))).
  { rewrite (Slice_array _ _ _ _ _ _ _ _ _ Hb Hget Hl Hr). cbv zeta.
    destruct (Z.ltb_spec l 0), (Z.ltb_spec r 0); try lia.
    replace (if negb isExclusive then r + 1 else r) with hi
      by (subst hi; by destruct isExclusive).
    assert (0 <= hi) by (subst hi; destruct isExclusive; lia).
    destruct (Z.ltb_spec hi 0); [lia|].
    destruct (Z.ltb_spec l 0); [lia|].
    by rewrite slice_take_drop by lia. }
  set (S := take (Z.to_nat hi - Z.to_nat l) (drop (Z.to_nat l) A)) in *.
  assert (HlenS : length S = Nat.min (Z.to_nat hi - Z.to_nat l) (length A - Z.to_nat l)).
  { subst S. by rewrite length_take, length_drop. }
  rewrite (Element_array _ _ _ _ _ _ HS eq_refl Hi). cbv zeta.
  destruct (Z.ltb_spec k 0); [lia|]. destruct (Z.leb_spec 0 k); [|lia].
  split.
  - intros Hlt.
    rewrite (Element_array base (Value (DNum (l + k))) scope bv A (l + k) Hb Hget eq_refl).
    cbv zeta. destruct (Z.ltb_spec (l + k) 0); [lia|].
    destruct (Z.leb_spec 0 (l + k)); [|lia].
    destruct (Z.ltb_spec k (Z.of_nat (length S))),
             (Z.ltb_spec (l + k) (Z.of_nat (length A))); try lia; simpl; [|done].
    do 3 f_equal. subst S.
    rewrite lookup_total_take_lt by lia. rewrite lookup_total_drop.
    f_equal. lia.
  - intros Hge. destruct (Z.ltb_spec k (Z.of_nat (length S))); [lia|done].
Qed.

(** ** From the entry point *)

(** X18.  The wildcard gives the documents: [evaluate] of [Star] over the
    documents [D] is the array [D], in its order, and the identity
    projection of the wildcard materialises to [D] as well. *)
Theorem evaluate_Star opts D :
  options.documents opts = Some (DArr D) ->
  evaluate Star opts = Ok (Some (StaticValue (DArr D)))
  /\ evaluate (Projection Star This) opts ≫= ref_get = Ok (DArr D).
Proof.
  intros Hdocs. unfold evaluate. rewrite Hdocs. split; [done|].
  cbn [mbind result_bind mret result_ret].
  match goal with
  | |- execute _ ?sc ≫= _ = _ =>
      destruct (Projection_This_Parent Star sc (StaticValue (DArr D)) eq_refl)
        as [_ H]; destruct (H eq_refl) as [-> _]
  end.
  apply get_stream_static.
Qed.

(** X19.  At the root there is no current value and no enclosing scope:
    whatever the documents and the parameters are, [This], [Parent], every
    identifier and every attribute of [This] evaluate to the null Value. *)
Theorem root_context_is_null opts :
  match options.documents opts with
  | None | Some DNull => True
  | Some d => isArray d = true
  end ->
  evaluate This opts = Ok (Some NULL_VALUE)
  /\ evaluate Parent opts = Ok (Some NULL_VALUE)
  /\ (forall name, evaluate (Identifier name) opts = Ok (Some NULL_VALUE))
  /\ (forall name, evaluate (Attribute This name) opts = Ok (Some NULL_VALUE)).
Proof.
  intros Hdocs. unfold evaluate.
  destruct (options.documents opts) as [[]|]; try discriminate; done.
Qed.

(** X20.  Parameters that are left out, or given as a falsy value ([null],
    [false], [0], the empty string), are ignored: the evaluation runs with
    the default parameters, [identity] alone. *)
Theorem evaluate_default_params opts src :
  match options.documents opts with
  | None | Some DNull => src = []
  | Some d => d = DArr src
  end ->
  match options.params opts with
  | None => True
  | Some p => truthy p = false
  end ->
  forall tree,
    evaluate tree opts
    = execute tree (new_Scope {[ "identity" := DStr "groot" ]}
                      {| documents := src |} (Some NULL_VALUE) None).
Proof.
  intros Hdocs Hps tree. unfold evaluate.
  destruct (options.params opts) as [p|]; [rewrite Hps|];
    destruct (options.documents opts) as [[]|]; simpl; try done;
    try (injection Hdocs as ->); by subst.
Qed.


(** ** Deref, once more *)

Lemma Deref_scan_result id docs r :
  Deref_scan id (map (fun d => Some (StaticValue d)) docs) None = Ok r ->
  r = Some NULL_VALUE
  \/ exists d, r = Some (StaticValue d) /\ d ∈ docs /\ has_id id d = true.
Proof.
  induction docs as [|d docs IH]; simpl.
  - intros [= <-]. by left.
  - assert (Hrest : Deref_scan id (map (fun d => Some (StaticValue d)) docs) None = Ok r ->
                    r = Some NULL_VALUE
                    \/ exists d', r = Some (StaticValue d') /\ d' ∈ d :: docs
                                  /\ has_id id d' = true).
    { intros H. destruct (IH H) as [?|(d' & ? & ? & ?)]; [by left|right].
      exists d'. split; [done|]. split; [by constructor|done]. }
    destruct d as [| | | | |m]; simpl; try done.
    destruct (m !! "_id") as [[| | |s| |]|] eqn:Hid; try done.
    destruct (String.eqb id s) eqn:E; [|done].
    intros [= <-]. right. exists (DObj m). split; [done|].
    split; [by constructor|]. simpl. by rewrite Hid.
Qed.

(** X22.  [Deref] makes nothing up: when it returns, the result is the null
    Value or a document of the source whose [_id] is a string, the very one
    the base refers to. *)
Theorem Deref_result_from_source base scope r :
  execute (Deref base) scope = Ok r ->
  r = Some NULL_VALUE
  \/ exists d id,
       r = Some (StaticValue d) /\ d ∈ documents (source scope)
       /\ has_id id d = true
       /\ exists m, execute base scope = Ok (Some (StaticValue (DObj m)))
                    /\ m !! "_ref" = Some (DStr id).
Proof.
  simpl. destruct (execute base scope) as [[bv|]|] eqn:Hb; simpl; try done.
  destruct (differs (getType bv) "object") eqn:Hty; [intros [= <-]; by left|].
  unfold differs in Hty. apply negb_false_iff, String.eqb_eq in Hty.
  destruct (getType_object _ Hty) as [m ->]. simpl.
  destruct (m !! "_ref") as [[| | |id| |]|] eqn:Hm; try (intros [= <-]; by left).
  intros H. destruct (Deref_scan_result _ _ _ H) as [?|(d & ? & ? & ?)]; [by left|].
  right. exists d, id. eauto 10.
Qed.

(** X23.  Following a reference and reading an attribute: when the base is
    an object whose [_ref] is the [_id] of a document of the source, no
    document before it has that [_id], and the document has no own property
    [hasOwnProperty], [Attribute (Deref base) name] is the attribute of that
    document, or the null Value when the document has no such key. *)
Theorem Attribute_of_Deref base name scope m id pre dm post :
  execute base scope = Ok (Some (StaticValue (DObj m))) ->
  m !! "_ref" = Some (DStr id) ->
  documents (source scope) = (pre ++ DObj dm :: post)%list ->
  Forall (fun x => x ≠ DNull /\ has_id id x = false) pre ->
  dm !! "_id" = Some (DStr id) ->
  dm !! "hasOwnProperty" = None ->
  execute (Attribute (Deref base) name) scope
  = Ok (Some (match dm !! name with
              | Some x => StaticValue x
              | None => NULL_VALUE
              end)).
Proof.
  intros Hb Hm Hdocs Hpre Hid Hown.
  assert (Hd : execute (Deref base) scope = Ok (Some (StaticValue (DObj dm)))).
  { rewrite (Deref_object _ _ _ _ Hb Hm), Hdocs. apply Deref_scan_first; [done|].
    simpl. by rewrite Hid, String.eqb_refl. }
  rewrite (Attribute_object _ name _ _ Hd Hown). by destruct (dm !! name).
Qed.

End Properties.

(** * Instances *)

(** The counterexamples to the claims that were amended, and the theorems
    above applied to concrete trees. *)


(** C3, as written, has [evaluate] raise on documents that are given and are
    no array.  Documents given as [null] are no array, and the evaluation
    runs, against an empty source. *)
Lemma evaluate_null_documents :
  isArray DNull = false
  /\ evaluate ∅ ∅ no_fields Star
       {| options.documents := Some DNull; options.params := None |}
     = Ok (Some (StaticValue (DArr []))).
Proof. split; reflexivity. Qed.

Lemma Element_spec_witness :
  execute ∅ ∅ no_fields (Element (Value tens) (Value (DNum (-1)))) (root_scope [])
    = Ok (Some (StaticValue (DNum 30)))
  /\ execute ∅ ∅ no_fields (Element (Value tens) (Value (DNum 3))) (root_scope [])
    = Ok (Some NULL_VALUE)
  /\ execute ∅ ∅ no_fields (Element (Value tens) (Value (DStr "1"))) (root_scope [])
    = Ok (Some NULL_VALUE)
  /\ execute ∅ ∅ no_fields (Element (Value (DStr "a")) (Value (DNum 0))) (root_scope [])
    = Ok (Some NULL_VALUE).
Proof.
  split; [|split; [|split]].
  - destruct (Element_spec ∅ ∅ no_fields (Value tens) (Value (DNum (-1)))
                (root_scope []) (StaticValue tens) eq_refl) as (_ & _ & H).
    destruct (H [DNum 10; DNum 20; DNum 30] (StaticValue (DNum (-1)))
                eq_refl eq_refl eq_refl) as (i & Hi & Hin).
    injection Hi as <-. cbv zeta in Hin. destruct Hin as [Hin _].
    destruct Hin as (x & Hx & Hex); [simpl; lia|].
    simpl in Hx. injection Hx as <-. exact Hex.
  - destruct (Element_spec ∅ ∅ no_fields (Value tens) (Value (DNum 3))
                (root_scope []) (StaticValue tens) eq_refl) as (_ & _ & H).
    destruct (H [DNum 10; DNum 20; DNum 30] (StaticValue (DNum 3))
                eq_refl eq_refl eq_refl) as (i & Hi & Hin).
    injection Hi as <-. cbv zeta in Hin. destruct Hin as [_ Hout].
    apply Hout. simpl. lia.
  - destruct (Element_spec ∅ ∅ no_fields (Value tens) (Value (DStr "1"))
                (root_scope []) (StaticValue tens) eq_refl) as (_ & H & _).
    apply (H (StaticValue (DStr "1"))); [reflexivity | reflexivity | discriminate].
  - destruct (Element_spec ∅ ∅ no_fields (Value (DStr "a")) (Value (DNum 0))
                (root_scope []) (StaticValue (DStr "a")) eq_refl) as (H & _).
    apply H. discriminate.
Defined.

Lemma Slice_spec_witness :
  execute ∅ ∅ no_fields
    (Slice (Value tens) (Value (DNum (-2))) (Value (DNum 7)) false) (root_scope [])
  = Ok (Some (StaticValue (DArr [DNum 20; DNum 30]))).
Proof.
  destruct (Slice_spec ∅ ∅ no_fields) as (H & _ & _).
  destruct (H (Value tens) (Value (DNum (-2))) (Value (DNum 7)) false
              (root_scope []) (StaticValue tens) [DNum 10; DNum 20; DNum 30]
              (StaticValue (DNum (-2))) (StaticValue (DNum 7))
              eq_refl eq_refl eq_refl eq_refl eq_refl eq_refl)
    as (l & r & Hl & Hr & Hrest).
  injection Hl as <-. injection Hr as <-. cbv zeta in Hrest.
  destruct Hrest as (S & Hex & HS & _). rewrite Hex, HS. reflexivity.
Defined.

Lemma Filter_spec_witness :
  (exists fv,
     execute ∅ ∅ no_fields (Filter (Value flags) This) (root_scope []) = Ok (Some fv)
     /\ get fv = Ok (DArr [DBool true; DBool true]))
  /\ execute ∅ ∅ no_fields (Filter (Value (DNum 1)) This) (root_scope [])
     = Ok (Some NULL_VALUE).
Proof.
  split.
  - destruct (Filter_spec ∅ ∅ no_fields (Value flags) This (root_scope [])
                (StaticValue flags) eq_refl) as (_ & _ & H).
    destruct (H [DBool true; DNum 3; DBool false; DBool true]
                (fun d => match d with DBool true => true | _ => false end)
                eq_refl) as (fv & Hex & Hget & _);
      [repeat constructor; eexists; split; reflexivity|].
    exists fv. split; [exact Hex | exact Hget].
  - destruct (Filter_spec ∅ ∅ no_fields (Value (DNum 1)) This (root_scope [])
                (StaticValue (DNum 1)) eq_refl) as (H & _).
    apply H. discriminate.
Defined.

Lemma Flatten_spec_witness :
  execute ∅ ∅ no_fields (Flatten (Value nested)) (root_scope [])
  = Ok (Some (StreamValue
                [Some (StaticValue (DNum 1)); Some (StaticValue (DNum 2));
                 Some NULL_VALUE; Some (StaticValue (DNum 4))] None)).
Proof.
  destruct (Flatten_spec ∅ ∅ no_fields) as (Hspec0 & _).
  destruct (Hspec0 (Value nested) (root_scope []) (StaticValue nested) eq_refl)
    as (_ & H).
  destruct (H eq_refl) as (elems & tail & Hex & Hspec).
  destruct (Hspec [StaticValue (DArr [DNum 1; DNum 2]); StaticValue (DNum 3);
                   StaticValue (DArr [DNum 4])] eq_refl) as [-> ->];
    [repeat constructor; discriminate|].
  exact Hex.
Defined.

Lemma Deref_spec_witness :
  execute ∅ ∅ no_fields (Deref (Value (DObj {[ "_ref" := DStr "y" ]})))
    (root_scope [doc_x; doc_y])
  = Ok (Some (StaticValue doc_y))
  /\ execute ∅ ∅ no_fields (Deref (Value (DObj {[ "_ref" := DStr "z" ]})))
    (root_scope [doc_x; doc_y])
  = Ok (Some NULL_VALUE)
  /\ execute ∅ ∅ no_fields (Deref (Value (DObj {[ "_ref" := DNum 1 ]})))
    (root_scope [doc_x; doc_y])
  = Ok (Some NULL_VALUE)
  /\ execute ∅ ∅ no_fields (Deref (Value (DStr "y"))) (root_scope [doc_x; doc_y])
  = Ok (Some NULL_VALUE).
Proof.
  destruct (Deref_spec ∅ ∅ no_fields) as (Hspec & _).
  split; [|split; [|split]].
  - destruct (Hspec (Value (DObj {[ "_ref" := DStr "y" ]}))
                (root_scope [doc_x; doc_y]) _ eq_refl) as (_ & H).
    destruct (H eq_refl) as (m & Hm & _ & Hfirst & _). injection Hm as <-.
    apply (Hfirst "y" [doc_x] doc_y []); try reflexivity.
    repeat constructor; discriminate.
  - destruct (Hspec (Value (DObj {[ "_ref" := DStr "z" ]}))
                (root_scope [doc_x; doc_y]) _ eq_refl) as (_ & H).
    destruct (H eq_refl) as (m & Hm & _ & _ & Hnone). injection Hm as <-.
    apply (Hnone "z"); [reflexivity|].
    repeat constructor; discriminate.
  - destruct (Hspec (Value (DObj {[ "_ref" := DNum 1 ]}))
                (root_scope [doc_x; doc_y]) _ eq_refl) as (_ & H).
    destruct (H eq_refl) as (m & Hm & Hnoref & _). injection Hm as <-.
    apply Hnoref. intros id. vm_compute. discriminate.
  - destruct (Hspec (Value (DStr "y"))
                (root_scope [doc_x; doc_y]) _ eq_refl) as (H & _).
    apply H. discriminate.
Defined.

Lemma evaluate_documents_witness :
  (exists params,
     forall tree,
       evaluate ∅ ∅ no_fields tree
         {| options.documents := None; options.params := None |}
       = execute ∅ ∅ no_fields tree
           (new_Scope params {| documents := [] |} (Some NULL_VALUE) None))
  /\ (forall tree,
        evaluate ∅ ∅ no_fields tree
          {| options.documents := Some (DObj {[ "_id" := DStr "x" ]});
             options.params := None |}
        = Throw (Error "documents must be an array")).
Proof.
  destruct (evaluate_documents ∅ ∅ no_fields) as [Hempty Hraise]. split.
  - apply Hempty. left. reflexivity.
  - apply (Hraise _ (DObj {[ "_id" := DStr "x" ]}));
      [reflexivity | discriminate | reflexivity].
Defined.

Lemma evaluate_params_witness :
  (exists scope,
     (forall tree,
        evaluate ∅ ∅ no_fields tree
          {| options.documents := Some (DArr [doc_x]);
             options.params :=
               Some (DObj {[ "identity" := DStr "me"; "lang" := DStr "en" ]}) |}
        = execute ∅ ∅ no_fields tree scope)
     /\ params scope !! "identity" = Some (DStr "me")
     /\ params scope !! "lang" = Some (DStr "en"))
  /\ (exists scope,
        (forall tree,
           evaluate ∅ ∅ no_fields tree
             {| options.documents := None;
                options.params := Some (DObj {[ "lang" := DStr "en" ]}) |}
           = execute ∅ ∅ no_fields tree scope)
        /\ params scope !! "identity" = Some (DStr "groot")
        /\ params scope !! "lang" = Some (DStr "en")
        /\ params scope !! "other" = None).
Proof.
  split.
  - destruct (evaluate_params ∅ ∅ no_fields
                {| options.documents := Some (DArr [doc_x]);
                   options.params :=
                     Some (DObj {[ "identity" := DStr "me"; "lang" := DStr "en" ]}) |}
                [doc_x] {[ "identity" := DStr "me"; "lang" := DStr "en" ]}
                eq_refl eq_refl)
      as (scope & Hrun & _ & Hcaller & _).
    exists scope. split; [exact Hrun|].
    split; (apply Hcaller; [discriminate | reflexivity]).
  - destruct (evaluate_params ∅ ∅ no_fields
                {| options.documents := None;
                   options.params := Some (DObj {[ "lang" := DStr "en" ]}) |}
                [] {[ "lang" := DStr "en" ]} eq_refl eq_refl)
      as (scope & Hrun & _ & Hcaller & Hdefault & Hother & _).
    exists scope. split; [exact Hrun|]. split; [|split].
    + apply Hdefault. reflexivity.
    + apply Hcaller; [discriminate | reflexivity].
    + apply Hother; [discriminate | reflexivity].
Defined.

(** The sample registries keep outcomes well formed. *)
Lemma sample_operators_wf op f :
  sample_operators !! op = Some f -> wf_operator f.
Proof.
  unfold sample_operators. intros H.
  apply lookup_singleton_Some in H as [_ <-].
  intros l r scope el er Hel _ Hscope. by apply Hel.
Qed.

Lemma no_functions_wf name f :
  (∅ : gmap string function) !! name = Some f -> wf_function f.
Proof. by rewrite lookup_empty. Qed.

Lemma no_fields_wf : wf_fields no_fields.
Proof. intros elems tail. split; reflexivity. Qed.

(** They make no bare [null] either. *)
Lemma sample_operators_null_free op f :
  sample_operators !! op = Some f -> null_free_operator f.
Proof.
  unfold sample_operators. intros H.
  apply lookup_singleton_Some in H as [_ <-].
  intros l r scope el er Hel _ Hscope. by apply Hel.
Qed.

Lemma no_functions_null_free name f :
  (∅ : gmap string function) !! name = Some f -> null_free_function f.
Proof. by rewrite lookup_empty. Qed.


Lemma Slice_bare_null_witness :
  execute sample_operators ∅ no_fields
    (Slice (Value tens) (Value (DStr "a")) (Value (DNum 2)) true) (root_scope [])
  = Ok None
  /\ execute sample_operators ∅ no_fields
       (Slice (Value (DNum 1)) (Value (DNum 0)) (Value (DNum 2)) true) (root_scope [])
     = Ok (Some NULL_VALUE)
  /\ execute sample_operators ∅ no_fields
       (Projection
          (Array [OpCall (named "first") This Star;
                  Slice (Value tens) (Value (DNum 0)) (Value (DNum 1)) false;
                  Element (Value tens) (Value (DStr "a"))])
          (Object [ObjectAttribute (Value (DStr "k")) This; ObjectSplat]))
       (root_scope [doc_x; doc_y])
     ≠ Ok None.
Proof.
  destruct (Slice_bare_null sample_operators ∅ no_fields)
    as (Hbound & _ & Hbase & Hfree).
  split; [|split].
  - apply (Hbound _ _ _ _ _ (StaticValue tens) (StaticValue (DStr "a"))
             (StaticValue (DNum 2))); try reflexivity.
    left. discriminate.
  - apply (Hbase _ _ _ _ _ (StaticValue (DNum 1))); [reflexivity | discriminate].
  - apply (Hfree sample_operators_null_free no_functions_null_free); reflexivity.
Defined.

(** ** The further properties applied to concrete trees *)

Lemma Object_last_attribute_wins_witness :
  execute ∅ ∅ no_fields
    (Object [ObjectAttribute (Value (DStr "a")) (Value (DNum 1));
             ObjectAttribute (Value (DStr "a")) (Value (DNum 2))]) (root_scope [])
  = Ok (Some (StaticValue (DObj (<[ "a" := DNum 2 ]> {[ "a" := DNum 1 ]}))))
  /\ execute ∅ ∅ no_fields
       (Attribute
          (Object [ObjectAttribute (Value (DStr "a")) (Value (DNum 1));
                   ObjectAttribute (Value (DStr "a")) (Value (DNum 2))]) "a")
       (root_scope [])
     = Ok (Some (StaticValue (DNum 2))).
Proof.
  destruct (Object_last_attribute_wins ∅ ∅ no_fields
              [ObjectAttribute (Value (DStr "a")) (Value (DNum 1))]
              (Value (DStr "a")) (Value (DNum 2)) (root_scope [])
              {[ "a" := DNum 1 ]} "a" (StaticValue (DNum 2)) (DNum 2)
              eq_refl eq_refl ltac:(discriminate) eq_refl ltac:(discriminate) eq_refl)
    as (H1 & H2 & _).
  split; [exact H1 | exact (H2 ltac:(discriminate) eq_refl)].
Defined.

Lemma Object_attribute_skipped_witness :
  execute ∅ ∅ no_fields
    (Object [ObjectAttribute (Value (DStr "a")) (Value (DNum 1));
             ObjectAttribute (Value (DNum 5)) (UnknownNode (named "Boom"))]) (root_scope [])
  = Ok (Some (StaticValue (DObj {[ "a" := DNum 1 ]})))
  /\ execute ∅ ∅ no_fields
       (Object [ObjectAttribute (Value (DStr "a")) (Value (DNum 1));
                ObjectAttribute (Value (DStr "b")) (Value DNull)]) (root_scope [])
     = Ok (Some (StaticValue (DObj {[ "a" := DNum 1 ]}))).
Proof.
  split.
  - destruct (Object_attribute_skipped ∅ ∅ no_fields
                [ObjectAttribute (Value (DStr "a")) (Value (DNum 1))]
                (Value (DNum 5)) (root_scope [])
                (Some (StaticValue (DObj {[ "a" := DNum 1 ]})))
                (StaticValue (DNum 5)) eq_refl eq_refl) as [H _].
    apply H. discriminate.
  - destruct (Object_attribute_skipped ∅ ∅ no_fields
                [ObjectAttribute (Value (DStr "a")) (Value (DNum 1))]
                (Value (DStr "b")) (root_scope [])
                (Some (StaticValue (DObj {[ "a" := DNum 1 ]})))
                (StaticValue (DStr "b")) eq_refl eq_refl) as [_ H].
    apply (H (Value DNull) NULL_VALUE); reflexivity.
Defined.

Lemma And_short_circuit_witness :
  execute ∅ ∅ no_fields (And (Value (DNum 1)) (UnknownNode (named "Boom"))) (root_scope [])
  = Ok (Some FALSE_VALUE)
  /\ execute ∅ ∅ no_fields (And (Value (DBool true)) (Value (DBool true)))
       (root_scope [])
     = Ok (Some TRUE_VALUE).
Proof.
  split.
  - destruct (And_short_circuit ∅ ∅ no_fields (Value (DNum 1)) (root_scope [])
                (StaticValue (DNum 1)) eq_refl) as [H _].
    apply H. reflexivity.
  - destruct (And_short_circuit ∅ ∅ no_fields (Value (DBool true)) (root_scope [])
                TRUE_VALUE eq_refl) as [_ H].
    apply (H eq_refl (Value (DBool true)) TRUE_VALUE). reflexivity.
Defined.

Lemma Not_Not_witness :
  execute ∅ ∅ no_fields (Not (Not (Value (DNum 1)))) (root_scope [])
  = Ok (Some FALSE_VALUE).
Proof.
  destruct (Not_Not ∅ ∅ no_fields (Value (DNum 1)) (root_scope [])) as [H _].
  destruct (H (StaticValue (DNum 1)) eq_refl) as [H1 _]. exact H1.
Defined.

Lemma Filter_literal_witness :
  execute ∅ ∅ no_fields (Filter (Value tens) (Value (DBool true))) (root_scope [])
  = Ok (Some (StreamValue
                [Some (StaticValue (DNum 10)); Some (StaticValue (DNum 20));
                 Some (StaticValue (DNum 30))] None))
  /\ execute ∅ ∅ no_fields (Filter (Value tens) (Value (DNum 1))) (root_scope [])
     = Ok (Some (StreamValue [] None)).
Proof.
  split.
  - exact (Filter_literal ∅ ∅ no_fields (Value tens) (root_scope [])
             (StaticValue tens) (DBool true) eq_refl eq_refl).
  - exact (Filter_literal ∅ ∅ no_fields (Value tens) (root_scope [])
             (StaticValue tens) (DNum 1) eq_refl eq_refl).
Defined.

Lemma Projection_maps_witness :
  execute ∅ ∅ no_fields (Projection (Value tens) (Value (DStr "x"))) (root_scope [])
  = Ok (Some (StreamValue
                [Some (StaticValue (DStr "x")); Some (StaticValue (DStr "x"));
                 Some (StaticValue (DStr "x"))] None)).
Proof.
  destruct (Projection_maps ∅ ∅ no_fields (Value tens) (Value (DStr "x"))
              (root_scope []) (StaticValue tens)
              (fun _ => Some (StaticValue (DStr "x"))) eq_refl eq_refl) as [H _].
  - repeat constructor.
  - exact H.
Defined.

Lemma Projection_This_Parent_witness :
  execute ∅ ∅ no_fields (Projection (Value (DNum 1)) This) (root_scope [])
  = Ok (Some (StaticValue (DNum 1)))
  /\ execute ∅ ∅ no_fields (Projection (Value (DNum 1)) Parent) (root_scope [])
     = Ok (Some NULL_VALUE)
  /\ execute ∅ ∅ no_fields (Projection (Value tens) Parent) (root_scope [])
     = Ok (Some (StreamValue [Some NULL_VALUE; Some NULL_VALUE; Some NULL_VALUE] None)).
Proof.
  destruct (Projection_This_Parent ∅ ∅ no_fields (Value (DNum 1)) (root_scope [])
              (StaticValue (DNum 1)) eq_refl) as [H1 _].
  destruct (H1 ltac:(discriminate)) as [Ha Hb].
  destruct (Projection_This_Parent ∅ ∅ no_fields (Value tens) (root_scope [])
              (StaticValue tens) eq_refl) as [_ H2].
  destruct (H2 eq_refl) as [_ Hc].
  split; [exact Ha|]. split; [exact Hb | exact Hc].
Defined.

Lemma empty_array_query_not_evaluated_witness :
  execute ∅ ∅ no_fields (Filter (Value (DArr [])) (UnknownNode (named "Boom"))) (root_scope [])
  = Ok (Some (StreamValue [] None))
  /\ execute ∅ ∅ no_fields (Projection (Value (DArr [])) (UnknownNode (named "Boom")))
       (root_scope [])
     = Ok (Some (StreamValue [] None)).
Proof.
  exact (empty_array_query_not_evaluated ∅ ∅ no_fields (Value (DArr []))
           (root_scope []) (StaticValue (DArr [])) eq_refl eq_refl eq_refl
           (UnknownNode (named "Boom"))).
Defined.

Lemma Flatten_Projection_singleton_witness :
  execute ∅ ∅ no_fields (Flatten (Projection (Value tens) (Array [This])))
    (root_scope [])
  = Ok (Some (StreamValue
                [Some (StaticValue (DNum 10)); Some (StaticValue (DNum 20));
                 Some (StaticValue (DNum 30))] None)).
Proof.
  exact (Flatten_Projection_singleton ∅ ∅ no_fields (Value tens) (root_scope [])
           (StaticValue tens) eq_refl eq_refl).
Defined.

Lemma Array_materialises_witness :
  execute ∅ ∅ no_fields (Array [Value (DNum 1); Star; Value tens]) (root_scope [doc_x])
    ≫= ref_get
  = Ok (DArr [DNum 1; DArr [doc_x]; tens]).
Proof.
  destruct (Array_materialises ∅ ∅ no_fields [Value (DNum 1); Star; Value tens]
              (root_scope [doc_x]) [DNum 1; DArr [doc_x]; tens]) as [H _].
  - repeat constructor; eexists; split; reflexivity.
  - exact H.
Defined.

Lemma Array_exception_on_materialisation_witness :
  exists elems,
    execute ∅ ∅ no_fields
      (Array ([Value (DNum 1)] ++ UnknownNode (named "Boom") :: [Value (DNum 2)]))
      (root_scope [])
    = Ok (Some (StreamValue elems (Some (Error "No executor for node.type=Boom"))))
    /\ length elems = 1%nat
    /\ get (StreamValue elems (Some (Error "No executor for node.type=Boom")))
       = Throw (Error "No executor for node.type=Boom").
Proof.
  apply (Array_exception_on_materialisation ∅ ∅ no_fields [Value (DNum 1)]
           (UnknownNode (named "Boom")) [Value (DNum 2)] (root_scope []) [DNum 1]).
  - repeat constructor; eexists; split; reflexivity.
  - reflexivity.
Defined.

Lemma Element_of_Array_witness :
  execute ∅ ∅ no_fields
    (Element (Array [Value (DNum 10); Value (DNum 20)]) (Value (DNum 1)))
    (root_scope [])
  = Ok (Some (StaticValue (DNum 20))).
Proof.
  apply (Element_of_Array ∅ ∅ no_fields [Value (DNum 10); Value (DNum 20)]
           (Value (DNum 1)) (root_scope []) [DNum 10; DNum 20] 1 (DNum 20)).
  - repeat constructor; eexists; split; reflexivity.
  - reflexivity.
  - lia.
  - reflexivity.
Defined.

Lemma Slice_whole_witness :
  execute ∅ ∅ no_fields (Slice (Value tens) (Value (DNum 0)) (Value (DNum 3)) true)
    (root_scope [])
  = Ok (Some (StaticValue tens))
  /\ execute ∅ ∅ no_fields
       (Slice (Value tens) (Value (DNum 0)) (Value (DNum (-1))) false) (root_scope [])
     = Ok (Some (StaticValue tens)).
Proof.
  split.
  - destruct (Slice_whole ∅ ∅ no_fields (Value tens) (Value (DNum 0))
                (Value (DNum 3)) (root_scope []) (StaticValue tens)
                [DNum 10; DNum 20; DNum 30] eq_refl eq_refl eq_refl) as [H _].
    apply H. reflexivity.
  - destruct (Slice_whole ∅ ∅ no_fields (Value tens) (Value (DNum 0))
                (Value (DNum (-1))) (root_scope []) (StaticValue tens)
                [DNum 10; DNum 20; DNum 30] eq_refl eq_refl eq_refl) as [_ H].
    apply H. reflexivity.
Defined.

Lemma Slice_is_a_segment_witness :
  exists n m : nat,
    execute ∅ ∅ no_fields
      (Slice (Value tens) (Value (DNum (-2))) (Value (DNum 100)) false) (root_scope [])
    = Ok (Some (StaticValue
                  (DArr (take n (drop m [DNum 10; DNum 20; DNum 30])))))
    /\ take n (drop m [DNum 10; DNum 20; DNum 30])
         `sublist_of` [DNum 10; DNum 20; DNum 30]
    /\ (length (take n (drop m [DNum 10; DNum 20; DNum 30])) <= 3)%nat.
Proof.
  exact (Slice_is_a_segment ∅ ∅ no_fields (Value tens) (Value (DNum (-2)))
           (Value (DNum 100)) false (root_scope []) (StaticValue tens)
           [DNum 10; DNum 20; DNum 30] (-2) 100 eq_refl eq_refl eq_refl eq_refl).
Defined.

Lemma Element_of_Slice_witness :
  execute ∅ ∅ no_fields
    (Element (Slice (Value tens) (Value (DNum 1)) (Value (DNum 3)) true)
       (Value (DNum 1))) (root_scope [])
  = execute ∅ ∅ no_fields (Element (Value tens) (Value (DNum (1 + 1)))) (root_scope [])
  /\ execute ∅ ∅ no_fields
       (Element (Slice (Value tens) (Value (DNum 1)) (Value (DNum 1)) false)
          (Value (DNum 1))) (root_scope [])
     = Ok (Some NULL_VALUE).
Proof.
  split.
  - destruct (Element_of_Slice ∅ ∅ no_fields (Value tens) (Value (DNum 1))
                (Value (DNum 3)) true (Value (DNum 1)) (root_scope [])
                (StaticValue tens) [DNum 10; DNum 20; DNum 30] 1 3 1
                eq_refl eq_refl eq_refl eq_refl eq_refl
                ltac:(lia) ltac:(lia) ltac:(lia)) as [H _].
    apply H. lia.
  - destruct (Element_of_Slice ∅ ∅ no_fields (Value tens) (Value (DNum 1))
                (Value (DNum 1)) false (Value (DNum 1)) (root_scope [])
                (StaticValue tens) [DNum 10; DNum 20; DNum 30] 1 1 1
                eq_refl eq_refl eq_refl eq_refl eq_refl
                ltac:(lia) ltac:(lia) ltac:(lia)) as [_ H].
    apply H. lia.
Defined.

Lemma evaluate_Star_witness :
  evaluate ∅ ∅ no_fields Star
    {| options.documents := Some (DArr [doc_x; doc_y]); options.params := None |}
  = Ok (Some (StaticValue (DArr [doc_x; doc_y])))
  /\ evaluate ∅ ∅ no_fields (Projection Star This)
       {| options.documents := Some (DArr [doc_x; doc_y]); options.params := None |}
       ≫= ref_get
     = Ok (DArr [doc_x; doc_y]).
Proof.
  exact (evaluate_Star ∅ ∅ no_fields
           {| options.documents := Some (DArr [doc_x; doc_y]);
              options.params := None |} [doc_x; doc_y] eq_refl).
Defined.

Lemma root_context_is_null_witness :
  evaluate ∅ ∅ no_fields This
    {| options.documents := Some (DArr [doc_x]); options.params := None |}
  = Ok (Some NULL_VALUE)
  /\ evaluate ∅ ∅ no_fields (Identifier "_id")
       {| options.documents := Some (DArr [doc_x]); options.params := None |}
     = Ok (Some NULL_VALUE).
Proof.
  destruct (root_context_is_null ∅ ∅ no_fields
              {| options.documents := Some (DArr [doc_x]); options.params := None |}
              eq_refl) as (H1 & _ & H3 & _).
  split; [exact H1 | exact (H3 "_id")].
Defined.

Lemma evaluate_default_params_witness :
  evaluate ∅ ∅ no_fields (Projection Star (Identifier "v"))
    {| options.documents := Some (DArr [doc_x]); options.params := Some (DNum 0) |}
  = execute ∅ ∅ no_fields (Projection Star (Identifier "v")) (root_scope [doc_x]).
Proof.
  exact (evaluate_default_params ∅ ∅ no_fields
           {| options.documents := Some (DArr [doc_x]);
              options.params := Some (DNum 0) |} [doc_x] eq_refl eq_refl
           (Projection Star (Identifier "v"))).
Defined.


Lemma Deref_result_from_source_witness :
  exists id,
    doc_y ∈ documents (source (root_scope [doc_x; doc_y]))
    /\ has_id id doc_y = true.
Proof.
  assert (E : execute ∅ ∅ no_fields (Deref (Value (DObj {[ "_ref" := DStr "y" ]})))
                (root_scope [doc_x; doc_y])
              = Ok (Some (StaticValue doc_y))) by reflexivity.
  destruct (Deref_result_from_source ∅ ∅ no_fields
              (Value (DObj {[ "_ref" := DStr "y" ]})) (root_scope [doc_x; doc_y])
              (Some (StaticValue doc_y)) E)
    as [H|(d & id & Hr & Hin & Hid & _)]; [discriminate|].
  injection Hr as <-. exists id. split; assumption.
Defined.

Lemma Attribute_of_Deref_witness :
  execute ∅ ∅ no_fields
    (Attribute (Deref (Value (DObj {[ "_ref" := DStr "y" ]}))) "v")
    (root_scope [doc_x; doc_y])
  = Ok (Some (StaticValue (DNum 2))).
Proof.
  assert (Hpre : Forall (fun x => x ≠ DNull /\ has_id "y" x = false) [doc_x])
    by (repeat constructor; discriminate).
  exact (Attribute_of_Deref ∅ ∅ no_fields
           (Value (DObj {[ "_ref" := DStr "y" ]})) "v" (root_scope [doc_x; doc_y])
           {[ "_ref" := DStr "y" ]} "y" [doc_x]
           {[ "_id" := DStr "y"; "v" := DNum 2 ]} []
           eq_refl eq_refl eq_refl Hpre eq_refl eq_refl).
Defined.
